(** * SportPro storefront script (assets/js/main.js): model and properties

    A shallow embedding of the parts of [main.js] that carry its
    specification: the cart manager with its persisted snapshot, the
    component loader with its fallbacks, and the local-file path fixer.

    Conventions of the model.
    - A JavaScript number is a finite decimal number, NaN, or one of the
      two infinities ([Num.number]). The finite numbers are exact: a
      sum or a product is the decimal sum or product, where JavaScript
      rounds to the nearest binary number of 64 bits and overflows to an
      infinity; and there is one zero, where JavaScript also has a
      negative one. The properties below take the sums and the
      products as the code writes them, and use of the laws of
      arithmetic only such as the rounded operations have too (whole
      numbers being exact up to 2 ^ 53).
    - The identifier of a product is a whole number or a string.
    - JavaScript strings are [string]s (sequences of 8-bit units, read as
      UTF-8 where a code point above 127 has to be written).
    - Objects used as structs are records; [localStorage] is a finite map
      from keys to strings; arrays are lists.
    - A call that can throw returns a [completion]. *)

From Stdlib Require Import ZArith List String Ascii Bool Lia Eqdep_dec.
From Stdlib Require Import DecimalN DecimalPos.
From stdpp Require Import gmap strings.
Import ListNotations.

Local Open Scope string_scope.
Local Open Scope list_scope.
Local Open Scope Z_scope.

(** ** Completions *)

Inductive error : Type :=
| SyntaxError
| TypeError.

Inductive completion (A : Type) : Type :=
| Normal (a : A)
| Throw (e : error).

Arguments Normal {A} a.
Arguments Throw {A} e.

(** ** Numbers *)

Module Num.

(** *** Finite numbers *)

Fixpoint pow10 (k : nat) : Z :=
  match k with
  | O => 1
  | S k' => 10 * pow10 k'
  end.

(** [mantissa / 10 ^ places], with no zero at the end of the decimal
    places: every finite number has one such form. *)
Definition normalb (m : Z) (k : nat) : bool :=
  match k with
  | O => true
  | S _ => negb (m mod 10 =? 0)
  end.

Record decimal : Type := mkDecimal {
  mantissa : Z;
  places : nat;
  normal : normalb mantissa places = true
}.

(** The decimal that is [m / 10 ^ k]. *)
Fixpoint norm (m : Z) (k : nat) : decimal :=
  match k with
  | O => mkDecimal m 0 eq_refl
  | S k' =>
      match (m mod 10 =? 0) as b return ((m mod 10 =? 0) = b -> decimal) with
      | true => fun _ => norm (m / 10) k'
      | false => fun H => mkDecimal m (S k') (f_equal negb H)
      end eq_refl
  end.

Definition of_Z (z : Z) : decimal := mkDecimal z 0 eq_refl.

(** [m * 10 ^ (e - k)], as a number literal [m]e[e] with [k] of the
    digits of [m] after the point denotes it. *)
Definition scaled (m : Z) (k : nat) (e : Z) : decimal :=
  let p := Z.of_nat k - e in
  if 0 <=? p then norm m (Z.to_nat p) else norm (m * 10 ^ (- p)) 0.

Definition dadd (a b : decimal) : decimal :=
  norm (mantissa a * pow10 (places b) + mantissa b * pow10 (places a))
       (places a + places b).

Definition dopp (a : decimal) : decimal := norm (- mantissa a) (places a).

Definition dmul (a b : decimal) : decimal :=
  norm (mantissa a * mantissa b) (places a + places b).

Definition dleb (a b : decimal) : bool :=
  mantissa a * pow10 (places b) <=? mantissa b * pow10 (places a).

Definition dltb (a b : decimal) : bool :=
  mantissa a * pow10 (places b) <? mantissa b * pow10 (places a).

Definition is_zero (a : decimal) : bool := mantissa a =? 0.

Definition is_negative (a : decimal) : bool := mantissa a <? 0.

(** *** The Number type *)

Inductive number : Type :=
| Fin (d : decimal)
| NaN
| PosInf
| NegInf.

Definition infinity (negative : bool) : number :=
  if negative then NegInf else PosInf.

(** [a + b] *)
Definition add (a b : number) : number :=
  match a, b with
  | NaN, _ | _, NaN => NaN
  | Fin x, Fin y => Fin (dadd x y)
  | PosInf, NegInf | NegInf, PosInf => NaN
  | PosInf, _ | _, PosInf => PosInf
  | NegInf, _ | _, NegInf => NegInf
  end.

(** [- a] *)
Definition opp (a : number) : number :=
  match a with
  | Fin x => Fin (dopp x)
  | NaN => NaN
  | PosInf => NegInf
  | NegInf => PosInf
  end.

(** [a - b] *)
Definition sub (a b : number) : number := add a (opp b).

(** [a * b] *)
Definition mul (a b : number) : number :=
  match a, b with
  | NaN, _ | _, NaN => NaN
  | Fin x, Fin y => Fin (dmul x y)
  | Fin x, PosInf | PosInf, Fin x =>
      if is_zero x then NaN else infinity (is_negative x)
  | Fin x, NegInf | NegInf, Fin x =>
      if is_zero x then NaN else infinity (negb (is_negative x))
  | PosInf, PosInf | NegInf, NegInf => PosInf
  | PosInf, NegInf | NegInf, PosInf => NegInf
  end.

(** [a <= b] *)
Definition leb (a b : number) : bool :=
  match a, b with
  | NaN, _ | _, NaN => false
  | Fin x, Fin y => dleb x y
  | NegInf, _ | _, PosInf => true
  | PosInf, _ | _, NegInf => false
  end.

(** [a < b] *)
Definition ltb (a b : number) : bool :=
  match a, b with
  | NaN, _ | _, NaN => false
  | Fin x, Fin y => dltb x y
  | PosInf, _ | _, NegInf => false
  | NegInf, _ | _, PosInf => true
  end.

Definition le (a b : number) : Prop := leb a b = true.
Definition lt (a b : number) : Prop := ltb a b = true.

(** [ToBoolean]: zero and NaN are falsy. *)
Definition truthy (a : number) : bool :=
  match a with
  | Fin x => negb (is_zero x)
  | NaN => false
  | PosInf | NegInf => true
  end.

(** [Number.isFinite] *)
Definition finite (a : number) : Prop :=
  match a with
  | Fin _ => True
  | _ => False
  end.

(** *** Literals *)

Definition of_literal (n : Number.number) : option number :=
  match n with
  | Number.Decimal (Decimal.Decimal i f) =>
      Some (Fin (scaled (Z.of_int (Decimal.app_int i f)) (Decimal.nb_digits f) 0))
  | Number.Decimal (Decimal.DecimalExp i f e) =>
      Some (Fin (scaled (Z.of_int (Decimal.app_int i f)) (Decimal.nb_digits f)
                   (Z.of_int e)))
  | Number.Hexadecimal _ => None
  end.

Definition to_literal (a : number) : option Number.number :=
  match a with
  | Fin (mkDecimal m O _) =>
      Some (Number.Decimal (Decimal.Decimal (Z.to_int m) Decimal.Nil))
  | _ => None
  end.

(** *** Text *)

Fixpoint digits (d : Decimal.uint) : list ascii :=
  match d with
  | Decimal.Nil => []
  | Decimal.D0 d => "0"%char :: digits d
  | Decimal.D1 d => "1"%char :: digits d
  | Decimal.D2 d => "2"%char :: digits d
  | Decimal.D3 d => "3"%char :: digits d
  | Decimal.D4 d => "4"%char :: digits d
  | Decimal.D5 d => "5"%char :: digits d
  | Decimal.D6 d => "6"%char :: digits d
  | Decimal.D7 d => "7"%char :: digits d
  | Decimal.D8 d => "8"%char :: digits d
  | Decimal.D9 d => "9"%char :: digits d
  end.

(** The digits of an integer, with its sign. *)
Definition print_Z (n : Z) : list ascii :=
  match n with
  | Z0 => ["0"%char]
  | Zpos p => digits (Pos.to_uint p)
  | Zneg p => "-"%char :: digits (Pos.to_uint p)
  end.

Definition digit (n : Z) : ascii := ascii_of_N (48 + Z.to_N n).

(** The last [k] digits of [n], zeros included. *)
Fixpoint fixed (k : nat) (n : Z) : list ascii :=
  match k with
  | O => []
  | S k' => digit (n / pow10 k' mod 10) :: fixed k' n
  end.

(** The number of digits of a positive integer. *)
Fixpoint count_digits (fuel : nat) (a : Z) : nat :=
  match fuel with
  | O => 1
  | S fuel' => if a <? 10 then 1%nat else S (count_digits fuel' (a / 10))
  end.

Definition nb_digits (a : Z) : nat := count_digits (Z.to_nat (Z.log2 a)) a.

(** The digits of a finite number without its sign, the point after
    the integer part. *)
Definition print_plain (a : Z) (k : nat) : list ascii :=
  print_Z (a / pow10 k)
  ++ match k with
     | O => []
     | S _ => "."%char :: fixed k a
     end.

(** The digits [s] of a finite number without its sign, the point after
    the first of the [k] digits, and the power of ten [e] to multiply
    by. *)
Definition print_exponential (s : Z) (k : nat) (e : Z) : list ascii :=
  digit (s / pow10 (k - 1))
  :: match (k - 1)%nat with
     | O => []
     | S _ => "."%char :: fixed (k - 1) s
     end
  ++ "e"%char :: (if e <? 0 then "-"%char else "+"%char) :: print_Z (Z.abs e).

(** What [String] writes for a finite number. With [n] the number of
    digits before the point ([n <= 0] when the number is below 0.1), the
    digits are written out when [-6 < n <= 21], and with an exponent
    otherwise. *)
Definition print (d : decimal) : list ascii :=
  let a := Z.abs (mantissa d) in
  let n := Z.of_nat (nb_digits a) - Z.of_nat (places d) in
  (if mantissa d <? 0 then ["-"%char] else [])
  ++ if (-6 <? n) && (n <=? 21) then print_plain a (places d)
     else
       let significand := norm a (nb_digits a) in
       print_exponential (mantissa significand) (places significand) (n - 1).

(** [String(a)] *)
Definition to_string (a : number) : string :=
  match a with
  | Fin d => string_of_list_ascii (print d)
  | NaN => "NaN"
  | PosInf => "Infinity"
  | NegInf => "-Infinity"
  end.

(** [a.toFixed(2)]: the nearest number with two decimal places, the
    larger one of two that are as near, then written with both places. *)
Definition toFixed2 (a : number) : string :=
  match a with
  | Fin d =>
      let x := Z.abs (mantissa d) in
      if 10 ^ 21 * pow10 (places d) <=? x then to_string a
      else
        let n := (200 * x + pow10 (places d)) / (2 * pow10 (places d)) in
        string_of_list_ascii
          ((if mantissa d <? 0 then ["-"%char] else []) ++ print_plain n 2)
  | _ => to_string a
  end.

End Num.

Declare Scope num_scope.
Delimit Scope num_scope with num.
Bind Scope num_scope with Num.number.
Number Notation Num.number Num.of_literal Num.to_literal : num_scope.
Infix "+" := Num.add : num_scope.
Infix "-" := Num.sub : num_scope.
Infix "*" := Num.mul : num_scope.
Infix "<=" := Num.le : num_scope.
Infix "<" := Num.lt : num_scope.
Infix "<=?" := Num.leb : num_scope.
Infix "<?" := Num.ltb : num_scope.
Notation "- a" := (Num.opp a) : num_scope.
Coercion Num.of_Z : Z >-> Num.decimal.
Coercion Num.Fin : Num.decimal >-> Num.number.

(** ** JSON: the values, [JSON.stringify] and [JSON.parse] *)

Module JSON.

(** The values a JSON text denotes. An object keeps its members in the
    order of the text; a read of a key takes the last member of that
    name, as [JSON.parse] lets a later duplicate win. *)
#[local] Unset Elimination Schemes.
Inductive json : Type :=
| JNull
| JBool (b : bool)
| JNum (n : Num.decimal)
| JStr (s : string)
| JArr (elems : list json)
| JObj (members : list (string * json)).
#[local] Set Elimination Schemes.

Definition text := list ascii.

Definition dquote : ascii := "034"%char.
Definition backslash : ascii := "\"%char.

Definition code (c : ascii) : N := N_of_ascii c.

(** *** Printing *)

Definition hex_digit (n : N) : ascii :=
  if (n <? 10)%N then ascii_of_N (48 + n) else ascii_of_N (87 + n).

(** What [JSON.stringify] writes for one character of a string. *)
Definition escape_char (c : ascii) : text :=
  if Ascii.eqb c dquote then [backslash; dquote]
  else if Ascii.eqb c backslash then [backslash; backslash]
  else if (code c =? 8)%N then [backslash; "b"%char]
  else if (code c =? 12)%N then [backslash; "f"%char]
  else if (code c =? 10)%N then [backslash; "n"%char]
  else if (code c =? 13)%N then [backslash; "r"%char]
  else if (code c =? 9)%N then [backslash; "t"%char]
  else if (code c <? 32)%N then
    [backslash; "u"%char; "0"%char; "0"%char;
     hex_digit (code c / 16); hex_digit (code c mod 16)]
  else [c].

Definition quote (s : string) : text :=
  dquote :: flat_map escape_char (list_ascii_of_string s) ++ [dquote].

(** The items of an array or an object, with a comma between them. *)
Definition sep_by {A : Type} (f : A -> text) : list A -> text :=
  fix go (l : list A) : text :=
    match l with
    | [] => []
    | x :: l' =>
        match l' with
        | [] => f x
        | _ :: _ => f x ++ ","%char :: go l'
        end
    end.

Fixpoint print (v : json) : text :=
  match v with
  | JNull => list_ascii_of_string "null"
  | JBool true => list_ascii_of_string "true"
  | JBool false => list_ascii_of_string "false"
  | JNum n => Num.print n
  | JStr s => quote s
  | JArr elems => "["%char :: sep_by print elems ++ ["]"%char]
  | JObj members =>
      "{"%char
      :: sep_by (fun kv => quote (fst kv) ++ ":"%char :: print (snd kv)) members
      ++ ["}"%char]
  end.

(** [JSON.stringify(v)] with no indentation. *)
Definition stringify (v : json) : string := string_of_list_ascii (print v).

(** *** Parsing *)

Definition is_ws (c : ascii) : bool :=
  Ascii.eqb c " "%char || (code c =? 9)%N || (code c =? 10)%N || (code c =? 13)%N.

Fixpoint skip_ws (s : text) : text :=
  match s with
  | c :: r => if is_ws c then skip_ws r else s
  | [] => []
  end.

Definition digit_of (c : ascii) : option (Decimal.uint -> Decimal.uint) :=
  if Ascii.eqb c "0"%char then Some Decimal.D0
  else if Ascii.eqb c "1"%char then Some Decimal.D1
  else if Ascii.eqb c "2"%char then Some Decimal.D2
  else if Ascii.eqb c "3"%char then Some Decimal.D3
  else if Ascii.eqb c "4"%char then Some Decimal.D4
  else if Ascii.eqb c "5"%char then Some Decimal.D5
  else if Ascii.eqb c "6"%char then Some Decimal.D6
  else if Ascii.eqb c "7"%char then Some Decimal.D7
  else if Ascii.eqb c "8"%char then Some Decimal.D8
  else if Ascii.eqb c "9"%char then Some Decimal.D9
  else None.

(** The longest run of decimal digits at the head of the text. *)
Fixpoint read_digits (s : text) : Decimal.uint * text :=
  match s with
  | c :: r =>
      match digit_of c with
      | Some k => let (d, r') := read_digits r in (k d, r')
      | None => (Decimal.Nil, s)
      end
  | [] => (Decimal.Nil, [])
  end.

(** The digits of a JSON integer: one zero, or a run that starts with a
    digit other than zero. *)
Definition parse_nat (s : text) : option (N * text) :=
  match read_digits s with
  | (Decimal.Nil, _) => None
  | (Decimal.D0 Decimal.Nil, r) => Some (0%N, r)
  | (Decimal.D0 _, _) => None
  | (d, r) => Some (N.of_uint d, r)
  end.

(** The value of a digit. *)
Definition digit_value (c : ascii) : option Z :=
  match digit_of c with
  | Some _ => Some (Z.of_N (code c - 48))
  | None => None
  end.

(** The longest run of digits at the head of the text, read after [acc]:
    the number read, the number of digits and the text left. *)
Fixpoint read_run (s : text) (acc : Z) (count : nat) : Z * nat * text :=
  match s with
  | c :: r =>
      match digit_value c with
      | Some d => read_run r (acc * 10 + d) (S count)
      | None => (acc, count, s)
      end
  | [] => (acc, count, [])
  end.

(** The fraction of a number literal: a point and one digit at least. A
    text that does not start with a point has no fraction. *)
Definition parse_fraction (s : text) : option (Z * nat * text) :=
  match s with
  | c :: r =>
      if Ascii.eqb c "."%char then
        match read_run r 0 0 with
        | (_, O, _) => None
        | (f, k, r') => Some (f, k, r')
        end
      else Some (0, O, s)
  | [] => Some (0, O, [])
  end.

(** The exponent of a number literal: [e] or [E], a sign or none, and
    one digit at least. *)
Definition parse_exponent (s : text) : option (Z * text) :=
  match s with
  | c :: r =>
      if Ascii.eqb c "e"%char || Ascii.eqb c "E"%char then
        let (negative, r1) :=
          match r with
          | c' :: r' =>
              if Ascii.eqb c' "-"%char then (true, r')
              else if Ascii.eqb c' "+"%char then (false, r')
              else (false, r)
          | [] => (false, [])
          end in
        match read_digits r1 with
        | (Decimal.Nil, _) => None
        | (e, r2) =>
            Some (if negative then - Z.of_N (N.of_uint e) else Z.of_N (N.of_uint e), r2)
        end
      else Some (0, s)
  | [] => Some (0, [])
  end.

(** A number literal after its sign: the integer part, the fraction and
    the exponent. *)
Definition parse_unsigned (negative : bool) (s : text) : option (json * text) :=
  match parse_nat s with
  | None => None
  | Some (i, s1) =>
      match parse_fraction s1 with
      | None => None
      | Some (f, k, s2) =>
          match parse_exponent s2 with
          | None => None
          | Some (e, s3) =>
              let m := Z.of_N i * Num.pow10 k + f in
              Some (JNum (Num.scaled (if negative then - m else m) k e), s3)
          end
      end
  end.

(** Number literals, by the grammar of JSON. *)
Definition parse_number (s : text) : option (json * text) :=
  match s with
  | c :: r =>
      if Ascii.eqb c "-"%char then parse_unsigned true r
      else parse_unsigned false s
  | [] => None
  end.

Definition hex_value (c : ascii) : option N :=
  let n := code c in
  if (48 <=? n)%N && (n <=? 57)%N then Some (n - 48)%N
  else if (97 <=? n)%N && (n <=? 102)%N then Some (n - 87)%N
  else if (65 <=? n)%N && (n <=? 70)%N then Some (n - 55)%N
  else None.

(** The UTF-8 units of a code point below 65536. *)
Definition utf8 (n : N) : text :=
  if (n <? 128)%N then [ascii_of_N n]
  else if (n <? 2048)%N then
    [ascii_of_N (192 + n / 64); ascii_of_N (128 + n mod 64)]
  else
    [ascii_of_N (224 + n / 4096); ascii_of_N (128 + (n / 64) mod 64);
     ascii_of_N (128 + n mod 64)].

(** The characters of a string literal after its opening quote, up to
    the closing quote. *)
Fixpoint parse_chars (s : text) : option (text * text) :=
  match s with
  | [] => None
  | c :: r =>
      if Ascii.eqb c dquote then Some ([], r)
      else if Ascii.eqb c backslash then
        match r with
        | [] => None
        | e :: r' =>
            let simple (d : ascii) :=
              match parse_chars r' with
              | Some (cs, rest) => Some (d :: cs, rest)
              | None => None
              end in
            if Ascii.eqb e dquote then simple dquote
            else if Ascii.eqb e backslash then simple backslash
            else if Ascii.eqb e "/"%char then simple "/"%char
            else if Ascii.eqb e "b"%char then simple (ascii_of_N 8)
            else if Ascii.eqb e "f"%char then simple (ascii_of_N 12)
            else if Ascii.eqb e "n"%char then simple (ascii_of_N 10)
            else if Ascii.eqb e "r"%char then simple (ascii_of_N 13)
            else if Ascii.eqb e "t"%char then simple (ascii_of_N 9)
            else if Ascii.eqb e "u"%char then
              match r' with
              | h1 :: h2 :: h3 :: h4 :: r'' =>
                  match hex_value h1, hex_value h2, hex_value h3, hex_value h4 with
                  | Some a, Some b, Some c', Some d =>
                      match parse_chars r'' with
                      | Some (cs, rest) =>
                          Some (utf8 (((a * 16 + b) * 16 + c') * 16 + d)%N ++ cs, rest)
                      | None => None
                      end
                  | _, _, _, _ => None
                  end
              | _ => None
              end
            else None
        end
      else if (code c <? 32)%N then None
      else
        match parse_chars r with
        | Some (cs, rest) => Some (c :: cs, rest)
        | None => None
        end
  end.

(** [expect w s]: the text left after the word [w] at the head of [s]. *)
Fixpoint expect (w s : text) : option text :=
  match w, s with
  | [], _ => Some s
  | a :: w', b :: s' => if Ascii.eqb a b then expect w' s' else None
  | _ :: _, [] => None
  end.

Definition literal (w : string) (v : json) (s : text) : option (json * text) :=
  match expect (list_ascii_of_string w) s with
  | Some r => Some (v, r)
  | None => None
  end.

(** Recursive descent on the JSON grammar. [fuel] bounds the nesting and
    the number of elements; the length of the text is always enough. *)
Fixpoint parse_value (fuel : nat) (s : text) {struct fuel} : option (json * text) :=
  match fuel with
  | O => None
  | S fuel' =>
      match skip_ws s with
      | [] => None
      | c :: r =>
          if Ascii.eqb c "["%char then
            match skip_ws r with
            | [] => None
            | c' :: r' =>
                if Ascii.eqb c' "]"%char then Some (JArr [], r')
                else
                  match parse_elements fuel' r with
                  | Some (vs, rest) => Some (JArr vs, rest)
                  | None => None
                  end
            end
          else if Ascii.eqb c "{"%char then
            match skip_ws r with
            | [] => None
            | c' :: r' =>
                if Ascii.eqb c' "}"%char then Some (JObj [], r')
                else
                  match parse_members fuel' r with
                  | Some (ms, rest) => Some (JObj ms, rest)
                  | None => None
                  end
            end
          else if Ascii.eqb c dquote then
            match parse_chars r with
            | Some (cs, rest) => Some (JStr (string_of_list_ascii cs), rest)
            | None => None
            end
          else if Ascii.eqb c "n"%char then literal "ull" JNull r
          else if Ascii.eqb c "t"%char then literal "rue" (JBool true) r
          else if Ascii.eqb c "f"%char then literal "alse" (JBool false) r
          else parse_number (c :: r)
      end
  end
with parse_elements (fuel : nat) (s : text) {struct fuel} : option (list json * text) :=
  match fuel with
  | O => None
  | S fuel' =>
      match parse_value fuel' s with
      | None => None
      | Some (v, r) =>
          match skip_ws r with
          | [] => None
          | c :: r' =>
              if Ascii.eqb c ","%char then
                match parse_elements fuel' r' with
                | Some (vs, rest) => Some (v :: vs, rest)
                | None => None
                end
              else if Ascii.eqb c "]"%char then Some ([v], r')
              else None
          end
      end
  end
with parse_members (fuel : nat) (s : text) {struct fuel} : option (list (string * json) * text) :=
  match fuel with
  | O => None
  | S fuel' =>
      match skip_ws s with
      | [] => None
      | q :: r0 =>
          if Ascii.eqb q dquote then
            match parse_chars r0 with
            | None => None
            | Some (k, r1) =>
                match skip_ws r1 with
                | [] => None
                | colon :: r2 =>
                    if Ascii.eqb colon ":"%char then
                      match parse_value fuel' r2 with
                      | None => None
                      | Some (v, r3) =>
                          match skip_ws r3 with
                          | [] => None
                          | c :: r4 =>
                              if Ascii.eqb c ","%char then
                                match parse_members fuel' r4 with
                                | Some (ms, rest) =>
                                    Some ((string_of_list_ascii k, v) :: ms, rest)
                                | None => None
                                end
                              else if Ascii.eqb c "}"%char then
                                Some ([(string_of_list_ascii k, v)], r4)
                              else None
                          end
                      end
                    else None
                end
            end
          else None
      end
  end.

(** [JSON.parse(s)]: one value, white space around it, nothing else. *)
Definition parse (s : string) : completion json :=
  let t := list_ascii_of_string s in
  match parse_value (S (length t)) t with
  | Some (v, r) =>
      match skip_ws r with
      | [] => Normal v
      | _ :: _ => Throw SyntaxError
      end
  | None => Throw SyntaxError
  end.

(** A text that does not go on with a digit. *)
Definition no_digit (rest : text) : Prop :=
  match rest with
  | [] => True
  | c :: _ => digit_of c = None
  end.

(** The characters that carry a number literal on. *)
Definition continues (c : ascii) : bool :=
  match digit_of c with
  | Some _ => true
  | None => Ascii.eqb c "."%char || Ascii.eqb c "e"%char || Ascii.eqb c "E"%char
  end.

(** A text after a value does not carry a number literal on. *)
Definition delimited (rest : text) : Prop :=
  match rest with
  | [] => True
  | c :: _ => continues c = false
  end.

(** Enough fuel reads a printed value back and leaves the text after it. *)
Definition reads_back (v : json) : Prop :=
  forall fuel rest,
    (length (print v) <= fuel)%nat -> delimited rest ->
    parse_value fuel (print v ++ rest) = Some (v, rest).

(** Reading a property of a parsed object. *)
Fixpoint get (k : string) (members : list (string * json)) : option json :=
  match members with
  | [] => None
  | (k', v) :: l =>
      match get k l with
      | Some v' => Some v'
      | None => if String.eqb k' k then Some v else None
      end
  end.

(** [ToBoolean] on a JSON value. *)
Definition truthy (v : json) : bool :=
  match v with
  | JNull => false
  | JBool b => b
  | JNum n => negb (Num.is_zero n)
  | JStr s => negb (String.eqb s "")
  | JArr _ | JObj _ => true
  end.

End JSON.

(** ** Text helpers *)

(** [lit s] is the text [s] with every backquote standing for a double
    quote: the markup and JSON texts of the script are written with it. *)
Fixpoint lit (s : string) : string :=
  match s with
  | EmptyString => EmptyString
  | String c s' => String (if Ascii.eqb c "`"%char then JSON.dquote else c) (lit s')
  end.

(** [String(n)] for an integer. *)
Definition string_of_Z (n : Z) : string := Num.to_string n.

(** [s.startsWith(p)] *)
Definition startsWith (s p : string) : bool := String.prefix p s.

(** [s.substring(n)]: the text from index [n] on. *)
Fixpoint substring_from (n : nat) (s : string) : string :=
  match n, s with
  | O, _ => s
  | S n', String _ s' => substring_from n' s'
  | S _, EmptyString => EmptyString
  end.

(** [s.includes(p)] *)
Fixpoint includes (s p : string) : bool :=
  String.prefix p s ||
  match s with
  | String _ s' => includes s' p
  | EmptyString => false
  end.

(** ** The cart manager (class [CartManager]) *)

Module CartManager.

Import JSON.

Local Open Scope num_scope.

(** Product identifiers: whole numbers in the catalog, strings when read
    from [data-id] attributes. *)
Inductive ident : Type :=
| IdNum (n : Z)
| IdStr (s : string).

(** [a === b] on identifiers. *)
Definition strict_eq (a b : ident) : bool :=
  match a, b with
  | IdNum n, IdNum m => (n =? m)%Z
  | IdStr s, IdStr t => String.eqb s t
  | _, _ => false
  end.

(** A product as handed to [addProduct]; [description], [badge] and
    [quantity] may be absent. *)
Record Product : Type := mkProduct {
  product_id : ident;
  product_name : string;
  product_description : option string;
  product_price : Num.number;
  product_badge : option string;
  product_quantity : option Num.number
}.

(** An element of [this.cart]. *)
Record LineItem : Type := mkLineItem {
  id : ident;
  name : string;
  description : option string;
  price : Num.number;
  badge : option string;
  quantity : Num.number
}.

(** [product.quantity || 1]: a quantity that is absent, zero or NaN gives
    1. *)
Definition quantity_or_1 (product : Product) : Num.number :=
  match product_quantity product with
  | Some q => if Num.truthy q then q else 1
  | None => 1
  end.

(** [{...product, quantity: q}] *)
Definition spread (product : Product) (q : Num.number) : LineItem :=
  {| id := product_id product;
     name := product_name product;
     description := product_description product;
     price := product_price product;
     badge := product_badge product;
     quantity := q |}.

(** [item.quantity = q] *)
Definition set_quantity (q : Num.number) (item : LineItem) : LineItem :=
  {| id := id item; name := name item; description := description item;
     price := price item; badge := badge item; quantity := q |}.

(** The callback [item => item.id === productId]. *)
Definition has_id (productId : ident) (item : LineItem) : bool :=
  strict_eq (id item) productId.

(** [this.cart.find(item => item.id === productId)] *)
Definition find (productId : ident) (cart : list LineItem) : option LineItem :=
  List.find (has_id productId) cart.

(** An assignment to a field of the object that [find] returned: the
    array holds that same object, so its first matching element changes. *)
Fixpoint assign (productId : ident) (f : LineItem -> LineItem)
    (cart : list LineItem) : list LineItem :=
  match cart with
  | [] => []
  | item :: rest =>
      if has_id productId item then f item :: rest
      else item :: assign productId f rest
  end.

(** *** The page elements the cart writes to *)

Record CountBadge : Type := mkCountBadge {
  count_text : string;
  count_display : string
}.

Record Row : Type := mkRow {
  row_data_id : string;
  row_title : string;
  row_price : string;
  row_quantity : string
}.

Inductive CartMarkup : Type :=
| CartEmpty
| CartRows (rows : list Row).

(** Each element is [None] when the page does not have it. *)
Record Page : Type := mkPage {
  cartCount : option CountBadge;
  cartTotal : option string;
  cartItems : option CartMarkup;
  cartFeedback : option string
}.

(** The manager's [cart] field, the browser's [localStorage] and the
    page. *)
Record State : Type := mkState {
  cart : list LineItem;
  localStorage : gmap string string;
  page : Page
}.

Definition with_cart (c : list LineItem) (st : State) : State :=
  {| cart := c; localStorage := localStorage st; page := page st |}.

Definition storageKey : string := "sportpro-cart".

(** *** Serialisation of the cart *)

Definition json_of_ident (i : ident) : json :=
  match i with
  | IdNum n => JNum (Num.of_Z n)
  | IdStr s => JStr s
  end.

(** What [JSON.stringify] writes for a number: NaN and the infinities
    become [null]. *)
Definition json_of_number (a : Num.number) : json :=
  match a with
  | Num.Fin d => JNum d
  | _ => JNull
  end.

Definition optional (k : string) (v : option string) : list (string * json) :=
  match v with
  | Some s => [(k, JStr s)]
  | None => []
  end.

(** The own properties of a line item, in the order in which
    [{...product, quantity}] creates them. *)
Definition json_of_item (item : LineItem) : json :=
  JObj ([("id", json_of_ident (id item)); ("name", JStr (name item))]
        ++ optional "description" (description item)
        ++ [("price", json_of_number (price item))]
        ++ optional "badge" (badge item)
        ++ [("quantity", json_of_number (quantity item))]).

Definition json_of_cart (c : list LineItem) : json :=
  JArr (map json_of_item c).

(** Reading a parsed value back as line items: the properties the
    methods access, with the types the model gives them. *)
Definition ident_of_json (v : json) : option ident :=
  match v with
  | JNum n =>
      match Num.places n with
      | O => Some (IdNum (Num.mantissa n))
      | S _ => None
      end
  | JStr s => Some (IdStr s)
  | _ => None
  end.

Definition string_of_json (v : json) : option string :=
  match v with JStr s => Some s | _ => None end.

Definition number_of_json (v : json) : option Num.number :=
  match v with JNum n => Some (Num.Fin n) | _ => None end.

Definition optional_string (v : option json) : option (option string) :=
  match v with
  | None => Some None
  | Some (JStr s) => Some (Some s)
  | Some _ => None
  end.

Definition item_of_json (v : json) : option LineItem :=
  match v with
  | JObj ms =>
      i ← get "id" ms ≫= ident_of_json;
      n ← get "name" ms ≫= string_of_json;
      d ← optional_string (get "description" ms);
      p ← get "price" ms ≫= number_of_json;
      b ← optional_string (get "badge" ms);
      q ← get "quantity" ms ≫= number_of_json;
      Some (mkLineItem i n d p b q)
  | _ => None
  end.

Fixpoint items_of_json (l : list json) : option (list LineItem) :=
  match l with
  | [] => Some []
  | v :: l' =>
      item ← item_of_json v;
      items ← items_of_json l';
      Some (item :: items)
  end.

Definition cart_of_json (v : json) : option (list LineItem) :=
  match v with
  | JArr l => items_of_json l
  | _ => None
  end.

(** *** The methods *)

(** [constructor()]: the value given to [this.cart], that is
    [JSON.parse(localStorage.getItem('sportpro-cart')) || []]. [getItem]
    gives [null] for a missing key and [JSON.parse] reads its argument as
    a string. *)
Definition constructor (storage : gmap string string) : completion json :=
  let stored := match storage !! storageKey with
                | Some s => s
                | None => "null"
                end in
  match JSON.parse stored with
  | Normal v => Normal (if truthy v then v else JArr [])
  | Throw e => Throw e
  end.

(** [saveCart()] *)
Definition saveCart (st : State) : State :=
  {| cart := cart st;
     localStorage := <[storageKey := stringify (json_of_cart (cart st))]> (localStorage st);
     page := page st |}.

(** [this.cart.reduce((sum, item) => sum + item.quantity, 0)] *)
Definition totalItems (c : list LineItem) : Num.number :=
  fold_left (fun sum item => sum + quantity item) c 0.

(** [this.cart.reduce((sum, item) => sum + (item.price * item.quantity), 0)] *)
Definition totalPrice (c : list LineItem) : Num.number :=
  fold_left (fun sum item => sum + price item * quantity item) c 0.

Definition string_of_ident (i : ident) : string :=
  match i with
  | IdNum n => string_of_Z n
  | IdStr s => s
  end.

(** [renderCartItems(container)]: the markup put in the container. *)
Definition renderCartItems (c : list LineItem) : CartMarkup :=
  match c with
  | [] => CartEmpty
  | _ :: _ =>
      CartRows (map (fun item =>
        {| row_data_id := string_of_ident (id item);
           row_title := name item;
           row_price := Num.toFixed2 (price item) +:+ "€";
           row_quantity := Num.to_string (quantity item) |}) c)
  end.

(** [updateCartUI()] *)
Definition updateCartUI (st : State) : State :=
  let c := cart st in
  let p := page st in
  {| cart := c;
     localStorage := localStorage st;
     page :=
       {| cartCount :=
            match cartCount p with
            | Some _ =>
                Some {| count_text := Num.to_string (totalItems c);
                        count_display := if 0 <? totalItems c then "flex" else "none" |}
            | None => None
            end;
          cartTotal :=
            match cartTotal p with
            | Some _ => Some (Num.toFixed2 (totalPrice c))
            | None => None
            end;
          cartItems :=
            match cartItems p with
            | Some _ => Some (renderCartItems c)
            | None => None
            end;
          cartFeedback := cartFeedback p |} |}.

(** [showAddToCartFeedback(product)]: the notice element is created when
    missing and shows the product's name. *)
Definition showAddToCartFeedback (product : Product) (st : State) : State :=
  {| cart := cart st;
     localStorage := localStorage st;
     page :=
       {| cartCount := cartCount (page st);
          cartTotal := cartTotal (page st);
          cartItems := cartItems (page st);
          cartFeedback := Some ("✅ " +:+ product_name product +:+ " agregado al carrito") |} |}.

(** [addProduct(product)] *)
Definition addProduct (product : Product) (st : State) : State :=
  let c :=
    match find (product_id product) (cart st) with
    | Some existingItem =>
        assign (product_id product)
          (fun item => set_quantity (quantity item + quantity_or_1 product) item)
          (cart st)
    | None => cart st ++ [spread product (quantity_or_1 product)]
    end in
  showAddToCartFeedback product (updateCartUI (saveCart (with_cart c st))).

(** [removeProduct(productId)] *)
Definition removeProduct (productId : ident) (st : State) : State :=
  let c := List.filter (fun item => negb (strict_eq (id item) productId)) (cart st) in
  updateCartUI (saveCart (with_cart c st)).

(** [updateQuantity(productId, quantity)] *)
Definition updateQuantity (productId : ident) (q : Num.number) (st : State) : State :=
  match find productId (cart st) with
  | Some item =>
      let st' := with_cart (assign productId (set_quantity q) (cart st)) st in
      if q <=? 0 then removeProduct productId st'
      else updateCartUI (saveCart st')
  | None => st
  end.

(** *** The invariant of the data model *)

(** The number of line items with a given identifier. *)
Definition count_id (productId : ident) (c : list LineItem) : nat :=
  length (List.filter (has_id productId) c).

(** At most one line item per identifier, and every quantity at least 1. *)
Definition invariant (c : list LineItem) : Prop :=
  List.NoDup (map id c) /\ Forall (fun item => 1 <= quantity item) c.

(** The prices and the quantities are finite numbers. *)
Definition finite_numbers (c : list LineItem) : Prop :=
  Forall (fun item => Num.finite (price item) /\ Num.finite (quantity item)) c.

End CartManager.

(** ** Elements of a document *)

Record Element : Type := mkElement {
  tagName : string;
  attributes : list (string * string);
  textContent : string
}.

(** [el.getAttribute(n)]: [None] stands for [null]. *)
Fixpoint getAttribute (n : string) (attrs : list (string * string)) : option string :=
  match attrs with
  | [] => None
  | (k, v) :: rest => if String.eqb k n then Some v else getAttribute n rest
  end.

Definition hasAttribute (n : string) (attrs : list (string * string)) : bool :=
  match getAttribute n attrs with
  | Some _ => true
  | None => false
  end.

(** [el.setAttribute(n, v)] *)
Fixpoint setAttribute (n v : string) (attrs : list (string * string)) : list (string * string) :=
  match attrs with
  | [] => [(n, v)]
  | (k, w) :: rest =>
      if String.eqb k n then (k, v) :: rest else (k, w) :: setAttribute n v rest
  end.

Definition with_attribute (n v : string) (el : Element) : Element :=
  {| tagName := tagName el;
     attributes := setAttribute n v (attributes el);
     textContent := textContent el |}.

(** ** The component loader (class [ComponentLoader]) *)

Module ComponentLoader.

Definition componentsPath : string := "components/".
Definition assetsPath : string := "assets/".

(** What [await fetch(url)] followed by [await response.text()] comes to:
    the fetch is rejected, or there is a response with its [ok] flag, its
    status and its body ([None] when reading the body fails). *)
Inductive FetchResult : Type :=
| Rejected
| Responded (ok : bool) (status : nat) (body : option string).

(** The text of a successful response. Every failure gives [None]: a
    rejected fetch, a status that is not a success, a body that cannot be
    read. *)
Definition fetched (r : FetchResult) : option string :=
  match r with
  | Responded true _ (Some text) => Some text
  | _ => None
  end.

Inductive Level : Type :=
| Log
| Warn
| Error.

(** The body of the page as far as the loader sees it: the elements it
    looks up by identifier, with their inner markup, and markup that has
    been spliced in, kept as text. *)
Inductive Node : Type :=
| Mount (id : string) (innerHTML : string)
| Markup (html : string).

Record Document : Type := mkDocument {
  head : list Element;
  body : list Node;
  console : list (Level * string)
}.

Definition with_head (h : list Element) (doc : Document) : Document :=
  {| head := h; body := body doc; console := console doc |}.

Definition with_body (b : list Node) (doc : Document) : Document :=
  {| head := head doc; body := b; console := console doc |}.

(** [console.log], [console.warn] and [console.error] *)
Definition print (l : Level) (msg : string) (doc : Document) : Document :=
  {| head := head doc; body := body doc;
     console := console doc ++ [(l, msg)] |}.

(** [document.getElementById(id)]: the inner markup of the element. *)
Fixpoint getElementById (i : string) (nodes : list Node) : option string :=
  match nodes with
  | [] => None
  | Mount j inner :: rest => if String.eqb j i then Some inner else getElementById i rest
  | Markup _ :: rest => getElementById i rest
  end.

(** [target.outerHTML = html] on the element found by [getElementById]. *)
Fixpoint set_outerHTML (i html : string) (nodes : list Node) : list Node :=
  match nodes with
  | [] => []
  | Mount j inner :: rest =>
      if String.eqb j i then Markup html :: rest
      else Mount j inner :: set_outerHTML i html rest
  | Markup h :: rest => Markup h :: set_outerHTML i html rest
  end.

(** [target.innerHTML = html] on the element found by [getElementById]. *)
Fixpoint set_innerHTML (i html : string) (nodes : list Node) : list Node :=
  match nodes with
  | [] => []
  | Mount j inner :: rest =>
      if String.eqb j i then Mount j html :: rest
      else Mount j inner :: set_innerHTML i html rest
  | Markup h :: rest => Markup h :: set_innerHTML i html rest
  end.

(** The children of the head that the HTML parser reads from the
    template of [loadDefaultHead]. *)
Definition defaultHead : list Element :=
  [ {| tagName := "meta"; attributes := [("charset", "UTF-8")]; textContent := "" |};
    {| tagName := "meta";
       attributes := [("name", "viewport");
                      ("content", "width=device-width, initial-scale=1.0")];
       textContent := "" |};
    {| tagName := "title"; attributes := [];
       textContent := "SportPro | Tienda Deportiva Online" |};
    {| tagName := "meta";
       attributes := [("name", "description");
                      ("content", "Tienda online de artículos deportivos profesionales")];
       textContent := "" |};
    {| tagName := "link";
       attributes := [("rel", "stylesheet"); ("href", assetsPath +:+ "css/main.css")];
       textContent := "" |};
    {| tagName := "style"; attributes := [];
       textContent := "
                body { font-family: Arial, sans-serif; margin: 0; padding: 0; }
                .fallback-message { padding: 20px; background: #f0f0f0; text-align: center; }
            " |} ].

(** [loadDefaultHead()]: a copy of each element is appended to the head. *)
Definition loadDefaultHead (doc : Document) : Document :=
  with_head (head doc ++ defaultHead) doc.

(** The object literal [fallbacks] of [showComponentFallback]: the
    properties it has of its own. *)
Definition fallbacks : list (string * string) :=
  [("header", lit "<header class=`fallback-header` style=`background: #1e40af; color: white; padding: 1rem;`>
                <div style=`max-width: 1200px; margin: 0 auto; display: flex; justify-content: space-between; align-items: center;`>
                    <h1 style=`margin: 0;`>SPORTPRO</h1>
                    <nav>
                        <a href=`index.html` style=`color: white; margin-left: 1rem;`>Inicio</a>
                        <a href=`pages/productos.html` style=`color: white; margin-left: 1rem;`>Productos</a>
                        <a href=`pages/ofertas.html` style=`color: white; margin-left: 1rem;`>Ofertas</a>
                    </nav>
                </div>
            </header>");
   ("footer", lit "<footer class=`fallback-footer` style=`background: #333; color: white; padding: 2rem; text-align: center;`>
                <p>&copy; 2024 SportPro Store - Tienda de artículos deportivos</p>
                <p style=`font-size: 0.9rem; color: #aaa;`>Cargando contenido completo...</p>
            </footer>")].

(** The names that every object literal inherits from
    [Object.prototype]. A read under one of them finds a function, or
    the prototype itself under [__proto__]; none of these is falsy. *)
Definition inheritedKeys : list string :=
  ["constructor"; "__defineGetter__"; "__defineSetter__"; "hasOwnProperty";
   "__lookupGetter__"; "__lookupSetter__"; "isPrototypeOf";
   "propertyIsEnumerable"; "toString"; "valueOf"; "__proto__"; "toLocaleString"].

(** What a read [o[k]] of such an object finds: a property of its own,
    an inherited member, or [undefined]. *)
Inductive Property : Type :=
| Own (value : string)
| Inherited
| Undefined.

Definition get_property (o : list (string * string)) (k : string) : Property :=
  match getAttribute k o with
  | Some value => Own value
  | None =>
      if existsb (String.eqb k) inheritedKeys then Inherited else Undefined
  end.

(** How the set-up of a component ends: the document it leaves, and
    whether it threw. *)
Inductive Outcome : Type :=
| Done (doc : Document)
| Failed (doc : Document).

Section Loading.

(** The network, and the children of the head that the HTML parser reads
    from a fetched text. *)
Variable fetch : string -> FetchResult.
Variable parseHead : string -> list Element.

(** What [initHeader] and [initFooter] make of the document: they log,
    bind listeners to the elements they find and, for the header,
    refresh the cart elements. *)
Variable initHeader : Document -> Outcome.
Variable initFooter : Document -> Outcome.

(** The text that the assignment to [innerHTML] makes of an inherited
    member; the engine gives it. *)
Variable memberText : string -> string.

(** [loadHead()] *)
Definition loadHead (doc : Document) : Document :=
  match fetch (componentsPath +:+ "head.html") with
  | Responded true _ (Some headContent) =>
      print Log "✅ Head cargado correctamente"
        (with_head (head doc ++ parseHead headContent) doc)
  | _ =>
      loadDefaultHead (print Error "❌ Error cargando head:" doc)
  end.

(** [initComponent(componentName)] *)
Definition initComponent (componentName : string) (doc : Document) : Outcome :=
  if String.eqb componentName "header" then initHeader doc
  else if String.eqb componentName "footer" then initFooter doc
  else Done doc.

(** [showComponentFallback(componentName, targetId)]: the test
    [fallbacks[componentName]] holds for a property of the literal, its
    markup not being empty, and for an inherited member. *)
Definition showComponentFallback (componentName targetId : string)
    (doc : Document) : Document :=
  match getElementById targetId (body doc), get_property fallbacks componentName with
  | Some _, Own markup => with_body (set_innerHTML targetId markup (body doc)) doc
  | Some _, Inherited =>
      with_body (set_innerHTML targetId (memberText componentName) (body doc)) doc
  | _, _ => doc
  end.

(** [loadComponent(componentName, targetId)]: the [catch] block runs
    when the fetch fails and when the set-up of the component throws. *)
Definition loadComponent (componentName targetId : string)
    (doc : Document) : Document :=
  let failure :=
    print Error ("❌ Error cargando " +:+ componentName +:+ ":") in
  match fetch (componentsPath +:+ componentName +:+ ".html") with
  | Responded true _ (Some html) =>
      match getElementById targetId (body doc) with
      | Some _ =>
          match
            initComponent componentName
              (print Log ("✅ Componente " +:+ componentName +:+ " cargado correctamente")
                 (with_body (set_outerHTML targetId html (body doc)) doc))
          with
          | Done doc' => doc'
          | Failed doc' => showComponentFallback componentName targetId (failure doc')
          end
      | None =>
          print Warn ("⚠️ Elemento #" +:+ targetId +:+ " no encontrado") doc
      end
  | _ => showComponentFallback componentName targetId (failure doc)
  end.

End Loading.

End ComponentLoader.

(** ** The path fixer (class [PathFixer]) *)

Module PathFixer.

(** [window.location] *)
Record Location : Type := mkLocation {
  protocol : string;
  pathname : string
}.

(** The new value of an anchor's [href]; the anchors that the loop leaves
    with an early [return] keep theirs. *)
Definition fixHref (isInPages : bool) (originalHref : string) : string :=
  if startsWith originalHref "http" || startsWith originalHref "#"
     || startsWith originalHref "mailto:" || startsWith originalHref "tel:"
  then originalHref
  else if startsWith originalHref "/" then
    if String.eqb originalHref "/" then
      if isInPages then "../index.html" else "index.html"
    else if startsWith originalHref "/pages/" then
      if isInPages then substring_from 6 originalHref
      else "pages" +:+ substring_from 5 originalHref
    else originalHref
  else if startsWith originalHref "./" && isInPages then
    if String.eqb originalHref "./" then "../index.html"
    else if String.eqb originalHref "./index.html" then "../index.html"
    else originalHref
  else originalHref.

(** The body of the loop over [document.querySelectorAll('a')]. *)
Definition fixLink (isInPages : bool) (link : Element) : Element :=
  if String.eqb (tagName link) "a" then
    match getAttribute "href" (attributes link) with
    | None => link
    | Some originalHref =>
        if String.eqb originalHref "" then link
        else
          let newHref := fixHref isInPages originalHref in
          if String.eqb newHref originalHref then link
          else with_attribute "href" newHref link
    end
  else link.

(** The selector ['link[href], script[src]']. *)
Definition isResource (el : Element) : bool :=
  (String.eqb (tagName el) "link" && hasAttribute "href" (attributes el))
  || (String.eqb (tagName el) "script" && hasAttribute "src" (attributes el)).

(** The body of the loop over the resources. *)
Definition fixResource (isInPages : bool) (resource : Element) : Element :=
  if isResource resource then
    let attr := if hasAttribute "href" (attributes resource) then "href" else "src" in
    match getAttribute attr (attributes resource) with
    | None => resource
    | Some originalUrl =>
        if negb (String.eqb originalUrl "") && startsWith originalUrl "/" then
          with_attribute attr
            ((if isInPages then ".." else ".") +:+ originalUrl) resource
        else resource
    end
  else resource.

(** [fixFileProtocolPaths()], on the elements of the document. *)
Definition fixFileProtocolPaths (loc : Location) (elements : list Element) : list Element :=
  let isInPages := includes (pathname loc) "/pages/" in
  map (fixResource isInPages) (map (fixLink isInPages) elements).

(** [init()] *)
Definition init (loc : Location) (elements : list Element) : list Element :=
  if String.eqb (protocol loc) "file:" then fixFileProtocolPaths loc elements
  else elements.

(** *** What the rewriting comes to, element by element *)

(** The hrefs that the loop over the anchors skips. *)
Definition skipped (href : string) : bool :=
  startsWith href "http" || startsWith href "#"
  || startsWith href "mailto:" || startsWith href "tel:".

(** [rewritten isInPages el el']: [el'] is what the path fixer makes of
    [el]. An anchor keeps a skipped href; its href ["/"] becomes the index
    page; an href under ["/pages/"] is changed; any other href that starts
    with ["/"] stays. A stylesheet or script reference that starts with
    ["/"] gets ["."] or [".."] in front; any other stays. *)
Definition rewritten (isInPages : bool) (el el' : Element) : Prop :=
  tagName el' = tagName el /\
  (tagName el = "a" ->
   forall href, getAttribute "href" (attributes el) = Some href ->
     (skipped href = true -> el' = el) /\
     (href = "/" ->
      el' = with_attribute "href"
              (if isInPages then "../index.html" else "index.html") el) /\
     (startsWith href "/pages/" = true ->
      exists newHref,
        getAttribute "href" (attributes el') = Some newHref /\ newHref <> href) /\
     (startsWith href "/" = true -> href <> "/" ->
      startsWith href "/pages/" = false -> el' = el)) /\
  (isResource el = true ->
   forall url,
     getAttribute (if hasAttribute "href" (attributes el) then "href" else "src")
       (attributes el) = Some url ->
     (startsWith url "/" = true ->
      el' = with_attribute
              (if hasAttribute "href" (attributes el) then "href" else "src")
              ((if isInPages then ".." else ".") +:+ url) el) /\
     (startsWith url "/" = false -> el' = el)).

End PathFixer.

(** ** A reload of the page *)

Module Reload.

Import CartManager.

(** A manager constructed now, from the storage as it is, would hold the
    line items of the cart. *)
Definition reloads (st : State) : Prop :=
  exists v,
    constructor (localStorage st) = Normal v /\ cart_of_json v = Some (cart st).

End Reload.

(** ** The buttons of the cart rows (listeners bound by [renderCartItems]) *)

Module CartButtons.

Import CartManager.

Section Listeners.

(** [Number(s)] when that is an integer; [None] when it is NaN or any
    other number, which equals no number of the model. *)
Variable toNumber : string -> option Z.

(** [i.id == productId] for the string [productId] of a [data-id]: a
    number is compared with the number the string converts to, a string
    with the string itself. *)
Definition loose_eq (i : ident) (productId : string) : bool :=
  match i with
  | IdNum n =>
      match toNumber productId with
      | Some m => (n =? m)%Z
      | None => false
      end
  | IdStr s => String.eqb s productId
  end.

(** The listener of the [+] and [-] buttons of a row; [productId] is the
    [data-id] of the row, [isPlus] tells the button. *)
Definition quantityClick (isPlus : bool) (productId : string) (st : State) : State :=
  match List.find (fun i => loose_eq (id i) productId) (cart st) with
  | Some item =>
      updateQuantity (id item)
        (if isPlus then quantity item + 1 else quantity item - 1)%num st
  | None => st
  end.

End Listeners.

(** The listener of the remove button of a row: [removeProduct] is called
    with the [data-id] string. *)
Definition removeClick (productId : string) (st : State) : State :=
  removeProduct (IdStr productId) st.

End CartButtons.

(** ** The add buttons of the product cards ([ProductManager.loadFeaturedProducts]) *)

Module Catalog.

Import CartManager.

(** The list that [getMockProducts] gives. *)
Definition getMockProducts : list Product :=
  [ mkProduct (IdNum 1) "Zapatillas Running Pro"
      (Some "Tecnología de amortiguación avanzada para máxima comodidad")
      89.99 (Some "🔥 Más vendido") None;
    mkProduct (IdNum 2) "Set Pesas Ajustables"
      (Some "De 5kg a 25kg con barra olímpica incluida")
      149.99 (Some "✨ Nuevo") None;
    mkProduct (IdNum 3) "Bicicleta de Montaña"
      (Some "Suspensión delantera, 21 velocidades, marco de aluminio")
      299.99 (Some "⚡ Oferta") None;
    mkProduct (IdNum 4) "Balón Fútbol Profesional"
      (Some "Tamaño 5, material de alta durabilidad, diseño oficial")
      34.99 (Some "🏆 Top") None ].

Section Listener.

Variable toNumber : string -> option Z.

(** The products that [getMockProducts] gave and the cards show. *)
Variable products : list Product.

(** The listener of an add button; [productId] is the [data-id] of the
    button. *)
Definition addToCartClick (productId : string) (st : State) : State :=
  match List.find
          (fun p => CartButtons.loose_eq toNumber (product_id p) productId) products
  with
  | Some product => addProduct product st
  | None => st
  end.

End Listener.

End Catalog.

(** ** The navigation menu and the cart modal ([initHeader], [initCartModal]) *)

Module HeaderMenu.

(** The toggle button and the list of links: the [aria-expanded]
    attribute of the button ([None] when it has none), and whether the
    button has the class [menu-toggle--active] and the list the class
    [nav-list--active]. *)
Record Menu : Type := mkMenu {
  ariaExpanded : option string;
  toggleActive : bool;
  navActive : bool
}.

(** A click on the toggle button. *)
Definition toggleClick (m : Menu) : Menu :=
  let isExpanded :=
    match ariaExpanded m with
    | Some v => String.eqb v "true"
    | None => false
    end in
  {| ariaExpanded := Some (if isExpanded then "false" else "true");
     toggleActive := negb (toggleActive m);
     navActive := negb (navActive m) |}.

(** A click on a link of the menu. *)
Definition linkClick (m : Menu) : Menu :=
  {| ariaExpanded := Some "false"; toggleActive := false; navActive := false |}.

Inductive Event : Type :=
| ToggleClick
| LinkClick.

Definition handle (m : Menu) (e : Event) : Menu :=
  match e with
  | ToggleClick => toggleClick m
  | LinkClick => linkClick m
  end.

(** The menu after a series of clicks. *)
Definition run (events : list Event) (m : Menu) : Menu :=
  fold_left handle events m.

(** The attribute and the two classes tell the same state. *)
Definition coherent (m : Menu) : Prop :=
  toggleActive m = navActive m /\
  ariaExpanded m = Some (if navActive m then "true" else "false").

End HeaderMenu.

Module CartModal.

(** The element [#cartModal]: its [aria-hidden] attribute, whether it has
    the class [modal--active], and its [style.display]. *)
Record Modal : Type := mkModal {
  ariaHidden : option string;
  active : bool;
  display : string
}.

(** A click on the cart button, and the timer it starts (10 ms). *)
Definition buttonClick (m : Modal) : Modal :=
  {| ariaHidden := Some "false"; active := active m; display := "flex" |}.
Definition openTimer (m : Modal) : Modal :=
  {| ariaHidden := ariaHidden m; active := true; display := display m |}.

(** A click on the close button or on the backdrop, and the timer it
    starts (300 ms). *)
Definition closeClick (m : Modal) : Modal :=
  {| ariaHidden := Some "true"; active := false; display := display m |}.
Definition closeTimer (m : Modal) : Modal :=
  {| ariaHidden := ariaHidden m; active := active m; display := "none" |}.

(** A click inside the modal reaches the listener of the modal with
    another target and does nothing. *)
Definition modalClick (targetIsModal : bool) (m : Modal) : Modal :=
  if targetIsModal then closeClick m else m.

Inductive Event : Type :=
| ButtonClick
| OpenTimer
| CloseClick
| BackdropClick
| InsideClick
| CloseTimer.

Definition handle (m : Modal) (e : Event) : Modal :=
  match e with
  | ButtonClick => buttonClick m
  | OpenTimer => openTimer m
  | CloseClick => closeClick m
  | BackdropClick => modalClick true m
  | InsideClick => modalClick false m
  | CloseTimer => closeTimer m
  end.

Definition run (events : list Event) (m : Modal) : Modal :=
  fold_left handle events m.

(** The cart button also refreshes the cart elements of the page. *)
Definition cartButtonClick (st : CartManager.State) (m : Modal)
    : CartManager.State * Modal :=
  (CartManager.updateCartUI st, buttonClick m).

End CartModal.

(** ** The newsletter form ([initFooter]) *)

Module Newsletter.

Record Button : Type := mkButton {
  text : string;
  background : string
}.

(** The form [#newsletterForm]: the value of its email input and its
    submit button, each [None] when the form lacks it. *)
Record Form : Type := mkForm {
  emailInput : option string;
  submitBtn : option Button
}.

(** How a submit ends: nothing to do, a timer started that holds the text
    the button had, or an error thrown by the listener. *)
Inductive Outcome : Type :=
| Ignored
| Scheduled (originalText : string)
| Thrown (e : error).

(** [handleNewsletterSubscription(email)]: the text of the alert. *)
Definition handleNewsletterSubscription (email : string) : string :=
  "¡Gracias por suscribirte con " +:+ email
  +:+ "! Pronto recibirás nuestras ofertas exclusivas.".

(** The listener of [submit]: the form afterwards, the alerts shown and
    the outcome. *)
Definition submit (f : Form) : Form * list string * Outcome :=
  match emailInput f with
  | None => (f, [], Ignored)
  | Some email =>
      if String.eqb email "" then (f, [], Ignored)
      else
        let alerts := [handleNewsletterSubscription email] in
        match submitBtn f with
        | None =>
            ({| emailInput := Some ""; submitBtn := None |}, alerts, Thrown TypeError)
        | Some b =>
            ({| emailInput := Some "";
                submitBtn := Some {| text := "¡Gracias!"; background := "#059669" |} |},
             alerts, Scheduled (text b))
        end
  end.

(** The timer of a submit (2000 ms), with the text it holds. *)
Definition revert (originalText : string) (f : Form) : Form :=
  {| emailInput := emailInput f;
     submitBtn :=
       match submitBtn f with
       | Some _ => Some {| text := originalText; background := "" |}
       | None => None
       end |}.

(** The visitor types an address in the input. *)
Definition typeEmail (email : string) (f : Form) : Form :=
  {| emailInput := match emailInput f with Some _ => Some email | None => None end;
     submitBtn := submitBtn f |}.

End Newsletter.

(** ** The checkout button ([App.initCheckout]) *)

Module Checkout.

Import CartManager.

(** The listener of [#checkoutBtn]: the alert shown, and whether the
    payment timer (1500 ms) is started. *)
Definition checkoutClick (st : State) : string * bool :=
  match cart st with
  | [] => ("Tu carrito está vacío", false)
  | _ :: _ =>
      ("Procesando compra de " +:+ string_of_Z (Z.of_nat (length (cart st)))
       +:+ " productos...
Total: " +:+ Num.toFixed2 (totalPrice (cart st)) +:+ "€", true)
  end.

(** The payment timer: the alert shown, the state, and the modal
    ([None] when the page has no [#cartModal]), whose own timer (300 ms)
    is [CartModal.closeTimer]. *)
Definition checkoutTimer (st : State) (modal : option CartModal.Modal)
    : string * State * option CartModal.Modal :=
  ("¡Compra realizada con éxito! Gracias por tu pedido.",
   updateCartUI (saveCart (with_cart [] st)),
   match modal with
   | Some m => Some (CartModal.closeClick m)
   | None => None
   end).

End Checkout.

(** ** The start of the application ([App.init]) *)

Module App.

(** The window as [init] sees it before anything is loaded: the global
    [cartManager] ([None] while unset, else the value of its [cart]), the
    storage, the inner markup of the [main] element ([None] when the page
    has none) and the [opacity] and [transition] styles of the body. *)
Record Window : Type := mkWindow {
  cartManager : option JSON.json;
  storage : gmap string string;
  main : option string;
  opacity : string;
  transition : string
}.

(** [showLoadingIndicator()] *)
Definition showLoadingIndicator (w : Window) : Window :=
  {| cartManager := cartManager w; storage := storage w; main := main w;
     opacity := "0.8"; transition := "opacity 0.3s" |}.

(** [hideLoadingIndicator()] *)
Definition hideLoadingIndicator (w : Window) : Window :=
  {| cartManager := cartManager w; storage := storage w; main := main w;
     opacity := "1"; transition := transition w |}.

(** [showErrorUI()] *)
Definition showErrorUI (w : Window) : Window :=
  {| cartManager := cartManager w; storage := storage w;
     main :=
       match main w with
       | Some _ => Some (lit "
                <section class=`error-section`>
                    <div class=`container`>
                        <h2>Algo salió mal</h2>
                        <p>No pudimos cargar la tienda en este momento. Por favor, intenta de nuevo.</p>
                        <button onclick=`location.reload()` class=`btn btn-primary`>Recargar Página</button>
                    </div>
                </section>
            ")
       | None => None
       end;
     opacity := opacity w; transition := transition w |}.

Section Init.

(** The statements of the [try] block that follow the construction of
    the cart manager: the loading of the components and of the products,
    and the binding of the checkout and scroll listeners. *)
Variable startup : Window -> Window.

(** [init()]: the [try] block ends at the constructor when it throws;
    the [catch] block shows the error section and the [finally] block
    hides the loading indicator. *)
Definition init (w : Window) : Window :=
  let w1 := showLoadingIndicator w in
  hideLoadingIndicator
    match CartManager.constructor (storage w1) with
    | Normal v =>
        startup
          {| cartManager := Some v; storage := storage w1; main := main w1;
             opacity := opacity w1; transition := transition w1 |}
    | Throw _ => showErrorUI w1
    end.

End Init.

End App.

(** ** Sample data *)

Module Samples.

Import CartManager.

(** A page that has the three cart elements, and one that has none. *)
Definition shopPage : Page :=
  mkPage (Some (mkCountBadge "0" "none")) (Some "0.00") (Some CartEmpty) None.
Definition barePage : Page := mkPage None None None None.

(** The product [{id: 1, name: "X", price: 10}] with a given [quantity]. *)
Definition productX (q : option Num.number) : Product :=
  mkProduct (IdNum 1) "X" None 10 None q.

Definition itemX (q : Num.number) : LineItem :=
  mkLineItem (IdNum 1) "X" None 10 None q.

(** A line item of another product. *)
Definition itemY : LineItem :=
  mkLineItem (IdNum 2) "Set Pesas Ajustables"
    (Some "De 5kg a 25kg con barra olímpica incluida") 150 (Some "✨ Nuevo") 1.

(** The first product of the catalog, and its line item. *)
Definition zapatillas : Product :=
  mkProduct (IdNum 1) "Zapatillas Running Pro"
    (Some "Tecnología de amortiguación avanzada para máxima comodidad")
    89.99 (Some "🔥 Más vendido") None.

Definition itemZapatillas (q : Num.number) : LineItem := spread zapatillas q.

Definition stateOf (c : list LineItem) : State := mkState c ∅ shopPage.

(** Networks: every fetch answers 200 with a header, 404, or is rejected. *)
Definition fetchOk (url : string) : ComponentLoader.FetchResult :=
  ComponentLoader.Responded true 200 (Some "<header>SPORTPRO</header>").
Definition fetch404 (url : string) : ComponentLoader.FetchResult :=
  ComponentLoader.Responded false 404 (Some "Not Found").
Definition fetchRejected (url : string) : ComponentLoader.FetchResult :=
  ComponentLoader.Rejected.

(** An HTML parser that finds no element. *)
Definition parseNothing (text : string) : list Element := [].

(** A page with the two containers of the components, and a page that
    lacks them. *)
Definition indexDocument : ComponentLoader.Document :=
  ComponentLoader.mkDocument []
    [ComponentLoader.Mount "header-container" "";
     ComponentLoader.Mount "main-content" "<h2>Productos</h2>";
     ComponentLoader.Mount "footer-container" ""]
    [].
Definition bareDocument : ComponentLoader.Document :=
  ComponentLoader.mkDocument []
    [ComponentLoader.Mount "main-content" "<h2>Productos</h2>"] [].

(** A set-up that leaves the document as it is, and one that throws. *)
Definition initNothing (doc : ComponentLoader.Document) : ComponentLoader.Outcome :=
  ComponentLoader.Done doc.
Definition initThrows (doc : ComponentLoader.Document) : ComponentLoader.Outcome :=
  ComponentLoader.Failed doc.

(** The text some engines give for an inherited function. *)
Definition nativeCode (name : string) : string :=
  "function " +:+ name +:+ "() { [native code] }".

(** The site opened from the file system, at its root and in [pages/]. *)
Definition rootLocation : PathFixer.Location :=
  PathFixer.mkLocation "file:" "/home/user/tienda/index.html".
Definition pagesLocation : PathFixer.Location :=
  PathFixer.mkLocation "file:" "/home/user/tienda/pages/ofertas.html".
Definition httpLocation : PathFixer.Location :=
  PathFixer.mkLocation "http:" "/pages/ofertas.html".

Definition anchor (href : string) : Element :=
  mkElement "a" [("class", "nav-link"); ("href", href)] "".
Definition stylesheet (href : string) : Element :=
  mkElement "link" [("rel", "stylesheet"); ("href", href)] "".
Definition script (src : string) : Element :=
  mkElement "script" [("src", src)] "".

(** A reading of decimal integers, for [CartButtons.loose_eq]. *)
Definition decimal (s : string) : option Z :=
  match JSON.parse_number (list_ascii_of_string s) with
  | Some (JSON.JNum n, []) =>
      match Num.places n with
      | O => Some (Num.mantissa n)
      | S _ => None
      end
  | _ => None
  end.

(** The menu and the modal as the page has them at first, the form of the
    footer, and a form without its button. *)
Definition closedMenu : HeaderMenu.Menu := HeaderMenu.mkMenu (Some "false") false false.
Definition hiddenModal : CartModal.Modal := CartModal.mkModal (Some "true") false "none".
Definition footerForm : Newsletter.Form :=
  Newsletter.mkForm (Some "") (Some (Newsletter.mkButton "Suscribirse" "")).

End Samples.

(** * Properties *)

(** ** Numbers *)

Section NumFacts.

Import Num.

Lemma pow10_pos (k : nat) : 0 < pow10 k.
Proof. induction k as [|k IH]; simpl pow10; lia. Qed.

Lemma pow10_add (a b : nat) : pow10 (a + b) = pow10 a * pow10 b.
Proof. induction a as [|a IH]; simpl pow10; [lia | rewrite IH; lia]. Qed.

Lemma pow10_pow (k : nat) : pow10 k = 10 ^ Z.of_nat k.
Proof.
  induction k as [|k IH]; [reflexivity |].
  rewrite Nat2Z.inj_succ, Z.pow_succ_r by lia. simpl pow10. now rewrite IH.
Qed.

(** A decimal is its mantissa and its number of places. *)
Lemma decimal_ext (a b : decimal) :
  mantissa a = mantissa b -> places a = places b -> a = b.
Proof.
  destruct a as [m k H], b as [m' k' H']; simpl; intros -> ->.
  f_equal. apply UIP_dec, bool_dec.
Qed.

Lemma norm_cases (P : decimal -> Prop) (m : Z) (k : nat) :
  ((m mod 10 =? 0) = true -> P (norm (m / 10) k)) ->
  (forall H : normalb m (S k) = true, (m mod 10 =? 0) = false -> P (mkDecimal m (S k) H)) ->
  P (norm m (S k)).
Proof.
  intros Ht Hf. simpl.
  generalize (eq_refl (m mod 10 =? 0)).
  generalize (m mod 10 =? 0) at 2 3.
  intros [] E; auto.
Qed.

(** [norm m k] has the value of [m / 10 ^ k]. *)
Lemma norm_value (m : Z) (k : nat) :
  mantissa (norm m k) * pow10 k = m * pow10 (places (norm m k)).
Proof.
  revert m. induction k as [|k IH]; intros m; [simpl; lia |].
  apply norm_cases.
  - intros E. apply Z.eqb_eq in E. specialize (IH (m / 10)).
    pose proof (Z.div_mod m 10 ltac:(lia)) as Hm. rewrite E in Hm.
    change (pow10 (S k)) with (10 * pow10 k).
    rewrite Z.mul_assoc, (Z.mul_comm _ 10), <- Z.mul_assoc, IH. lia.
  - intros H _. reflexivity.
Qed.

Lemma norm_normal (m : Z) (k : nat) (H : normalb m k = true) :
  norm m k = mkDecimal m k H.
Proof.
  destruct k as [|k]; [now apply decimal_ext |].
  apply norm_cases.
  - intros E. pose proof H as H0. simpl in H0. rewrite E in H0. discriminate H0.
  - intros H' _. now apply decimal_ext.
Qed.

Lemma norm_id (d : decimal) : norm (mantissa d) (places d) = d.
Proof. destruct d as [m k H]. apply norm_normal. Qed.

Lemma norm_0 (m : Z) : norm m 0 = of_Z m.
Proof. reflexivity. Qed.

(** Comparisons with a normalised decimal are comparisons of the values. *)
Lemma cross_le (a c d p q r : Z) :
  0 < p -> 0 < q -> c * q = d * p ->
  (a * p <= c * r <-> a * q <= d * r).
Proof.
  intros Hp Hq H. split; intros Hle.
  - apply (Z.mul_le_mono_pos_r _ _ p Hp).
    replace (d * r * p) with (c * r * q) by (rewrite <- !Z.mul_assoc, (Z.mul_comm r q), (Z.mul_comm r p), !Z.mul_assoc, H; reflexivity).
    replace (a * q * p) with (a * p * q) by ring.
    apply Z.mul_le_mono_nonneg_r; lia.
  - apply (Z.mul_le_mono_pos_r _ _ q Hq).
    replace (c * r * q) with (d * r * p) by (rewrite <- !Z.mul_assoc, (Z.mul_comm r q), (Z.mul_comm r p), !Z.mul_assoc, H; reflexivity).
    replace (a * p * q) with (a * q * p) by ring.
    apply Z.mul_le_mono_nonneg_r; lia.
Qed.

Lemma dleb_norm_r (x : decimal) (m : Z) (k : nat) :
  dleb x (norm m k) = (mantissa x * pow10 k <=? m * pow10 (places x)).
Proof.
  unfold dleb. apply eq_true_iff_eq. rewrite !Z.leb_le.
  apply cross_le; [apply pow10_pos | apply pow10_pos | apply norm_value].
Qed.

Lemma dleb_norm_l (x : decimal) (m : Z) (k : nat) :
  dleb (norm m k) x = (m * pow10 (places x) <=? mantissa x * pow10 k).
Proof.
  unfold dleb. apply eq_true_iff_eq. rewrite !Z.leb_le.
  pose proof (norm_value m k) as Hv.
  pose proof (pow10_pos k) as Hk.
  pose proof (pow10_pos (places (norm m k))) as Hn.
  pose proof (cross_le (- mantissa x) (- mantissa (norm m k)) (- m)
                (pow10 (places (norm m k))) (pow10 k) (pow10 (places x)) Hn Hk
                ltac:(lia)) as Hc.
  lia.
Qed.

Lemma dltb_dleb (a b : decimal) : dltb a b = negb (dleb b a).
Proof. unfold dltb, dleb. apply Z.ltb_antisym. Qed.

Lemma dadd_0_l (d : decimal) : dadd (of_Z 0) d = d.
Proof.
  unfold dadd. simpl mantissa. simpl places. simpl pow10.
  rewrite Z.mul_0_l, Z.add_0_l, Z.mul_1_r. apply norm_id.
Qed.

Lemma dmul_comm (a b : decimal) : dmul a b = dmul b a.
Proof. unfold dmul. now rewrite Z.mul_comm, Nat.add_comm. Qed.

Lemma dadd_of_Z (a b : Z) : dadd (of_Z a) (of_Z b) = of_Z (a + b).
Proof. unfold dadd. simpl. now rewrite !Z.mul_1_r. Qed.

Lemma places_norm_le (m : Z) (k : nat) : (places (norm m k) <= k)%nat.
Proof.
  revert m. induction k as [|k IH]; intros m; [reflexivity |].
  apply norm_cases.
  - intros _. specialize (IH (m / 10)). lia.
  - intros H _. reflexivity.
Qed.

Lemma abs_mod_10 (m : Z) : (Z.abs m mod 10 =? 0) = (m mod 10 =? 0).
Proof.
  apply eq_true_iff_eq. rewrite !Z.eqb_eq, !Z.mod_divide by lia.
  apply Z.divide_abs_r.
Qed.

(** A number of [nb_digits a] digits lies between the powers of ten. *)
Lemma count_digits_spec (fuel : nat) (a : Z) :
  0 < a < 2 ^ (Z.of_nat fuel + 1) ->
  pow10 (count_digits fuel a - 1) <= a < pow10 (count_digits fuel a)
  /\ (1 <= count_digits fuel a)%nat.
Proof.
  revert a. induction fuel as [|fuel IH]; intros a Ha.
  - simpl in *. lia.
  - simpl count_digits. destruct (Z.ltb_spec a 10) as [Hlt | Hge].
    + simpl. lia.
    + assert (0 < a / 10 < 2 ^ (Z.of_nat fuel + 1)) as Hq.
      { split; [apply Z.div_str_pos; lia |].
        apply Z.div_lt_upper_bound; [lia |].
        replace (Z.of_nat (S fuel) + 1) with (Z.succ (Z.of_nat fuel + 1)) in Ha by lia.
        rewrite Z.pow_succ_r in Ha by lia. lia. }
      destruct (IH _ Hq) as [[Hlo Hhi] Hc].
      pose proof (Z.div_mod a 10 ltac:(lia)) as Hd.
      pose proof (Z.mod_pos_bound a 10 ltac:(lia)) as Hm.
      destruct (count_digits fuel (a / 10)) as [|c]; [lia |].
      replace (S c - 1)%nat with c in Hlo by lia.
      replace (S (S c) - 1)%nat with (S c) by lia.
      change (pow10 (S (S c))) with (10 * pow10 (S c)).
      change (pow10 (S c)) with (10 * pow10 c) in *. lia.
Qed.

Lemma nb_digits_spec (a : Z) :
  0 < a ->
  pow10 (nb_digits a - 1) <= a < pow10 (nb_digits a) /\ (1 <= nb_digits a)%nat.
Proof.
  intros Ha. apply count_digits_spec.
  rewrite Z2Nat.id by apply Z.log2_nonneg.
  pose proof (Z.log2_spec a Ha). lia.
Qed.

(** The digits of a positive integer without the zeros at its end: as
    many as the places that [norm] keeps, the first one not a zero. *)
Lemma significand_spec (a : Z) :
  0 < a ->
  let r := norm a (nb_digits a) in
  mantissa r * pow10 (nb_digits a) = a * pow10 (places r)
  /\ (1 <= places r <= nb_digits a)%nat
  /\ pow10 (places r - 1) <= mantissa r < pow10 (places r).
Proof.
  intros Ha r. subst r.
  destruct (nb_digits_spec a Ha) as [[Hlo Hhi] HN].
  pose proof (norm_value a (nb_digits a)) as Hv.
  pose proof (places_norm_le a (nb_digits a)) as Hk.
  set (s := mantissa (norm a (nb_digits a))) in *.
  set (k := places (norm a (nb_digits a))) in *.
  set (N := nb_digits a) in *.
  pose proof (pow10_pos N) as HpN. pose proof (pow10_pos k) as Hpk.
  assert (s < pow10 k) as Hs by nia.
  assert (0 < s) as Hs0 by nia.
  assert (1 <= k)%nat as Hk1.
  { destruct k as [|k]; [| lia]. simpl pow10 in *. lia. }
  split; [exact Hv |]. split; [lia |]. split; [| exact Hs].
  replace N with (S (N - 1)) in Hv by lia.
  replace k with (S (k - 1)) in Hv at 1 by lia.
  change (pow10 (S ?j)) with (10 * pow10 j) in Hv.
  pose proof (pow10_pos (N - 1)). pose proof (pow10_pos (k - 1)). nia.
Qed.

(** The digits and the exponent that [print] writes denote the
    number. *)
Lemma scaled_significand (d : decimal) :
  mantissa d <> 0 ->
  let a := Z.abs (mantissa d) in
  let r := norm a (nb_digits a) in
  scaled (if mantissa d <? 0 then - mantissa r else mantissa r) (places r - 1)
    (Z.of_nat (nb_digits a) - Z.of_nat (places d) - 1)
  = d.
Proof.
  destruct d as [m p H]. simpl mantissa. simpl places. intros Hm a r.
  assert (0 < a) as Ha by (subst a; lia).
  destruct (significand_spec a Ha) as (Hv & [Hk1 HkN] & Hs).
  fold r in Hv, Hk1, HkN, Hs.
  assert ((if m <? 0 then - a else a) = m) as Esign
    by (subst a; destruct (Z.ltb_spec m 0); lia).
  destruct p as [|p].
  - unfold scaled.
    replace (Z.of_nat (places r - 1) - (Z.of_nat (nb_digits a) - Z.of_nat 0 - 1))
      with (- Z.of_nat (nb_digits a - places r)) by lia.
    pose proof (pow10_pos (places r)) as Hpk.
    assert (mantissa r * pow10 (nb_digits a - places r) = a) as Es.
    { replace (nb_digits a) with ((nb_digits a - places r) + places r)%nat in Hv at 1 by lia.
      rewrite pow10_add in Hv. nia. }
    destruct (Z.leb_spec 0 (- Z.of_nat (nb_digits a - places r))) as [Hpp | Hpp].
    + assert (nb_digits a - places r = 0)%nat as E0 by lia.
      rewrite E0 in *. simpl pow10 in Es. simpl Z.to_nat.
      apply decimal_ext; [| reflexivity]. simpl.
      replace (mantissa r) with a by lia. exact Esign.
    + apply decimal_ext; [| reflexivity]. simpl.
      rewrite Z.opp_involutive, <- pow10_pow.
      destruct (m <? 0); lia.
  - assert (normalb a (nb_digits a) = true) as Hn.
    { destruct (nb_digits a) as [|N]; [lia |]. simpl in *. subst a.
      now rewrite abs_mod_10. }
    assert (r = mkDecimal a (nb_digits a) Hn) as Er by apply norm_normal.
    rewrite Er. simpl mantissa. simpl places. unfold scaled.
    replace (Z.of_nat (nb_digits a - 1) - (Z.of_nat (nb_digits a) - Z.of_nat (S p) - 1))
      with (Z.of_nat (S p)) by lia.
    destruct (Z.leb_spec 0 (Z.of_nat (S p))); [| lia].
    rewrite Nat2Z.id, Esign. apply norm_normal.
Qed.

(** *** Numbers *)

Lemma add_0_l (a : number) : (0 + a)%num = a.
Proof. destruct a; try reflexivity. simpl. f_equal. apply dadd_0_l. Qed.

Lemma mul_comm (a b : number) : (a * b)%num = (b * a)%num.
Proof. destruct a, b; try reflexivity. simpl. f_equal. apply dmul_comm. Qed.

Lemma add_of_Z (a b : Z) : (a + b)%num = (a + b)%Z.
Proof. simpl. now rewrite dadd_of_Z. Qed.

Lemma sub_of_Z (a b : Z) : (a - b)%num = (a - b)%Z.
Proof.
  unfold sub. simpl. unfold dadd. simpl.
  rewrite !Z.mul_1_r. reflexivity.
Qed.

Lemma le_of_Z (a b : Z) : (a <= b)%num <-> (a <= b)%Z.
Proof. unfold le. simpl. unfold dleb. simpl. rewrite Z.leb_le. lia. Qed.

Lemma lt_of_Z (a b : Z) : (a < b)%num <-> (a < b)%Z.
Proof. unfold lt. simpl. unfold dltb. simpl. rewrite Z.ltb_lt. lia. Qed.

Lemma le_1_add (a b : number) : (1 <= a -> 1 <= b -> 1 <= a + b)%num.
Proof.
  unfold le. destruct a as [x| | |], b as [y| | |]; simpl; try discriminate; auto.
  unfold dadd. rewrite dleb_norm_r. unfold dleb. simpl.
  rewrite !Z.leb_le, pow10_add.
  pose proof (pow10_pos (places x)). pose proof (pow10_pos (places y)). nia.
Qed.

Lemma le_0_1_add (a b : number) : (0 <= a -> 1 <= b -> 1 <= a + b)%num.
Proof.
  unfold le. destruct a as [x| | |], b as [y| | |]; simpl; try discriminate; auto.
  unfold dadd. rewrite dleb_norm_r. unfold dleb. simpl.
  rewrite !Z.leb_le, pow10_add.
  pose proof (pow10_pos (places x)). pose proof (pow10_pos (places y)). nia.
Qed.


Lemma le_sub_1 (a : number) : (a <= 1 -> a - 1 <= 0)%num.
Proof.
  unfold le, sub. destruct a as [x| | |]; simpl; try discriminate; auto.
  unfold dadd. rewrite dleb_norm_l. unfold dleb. simpl.
  rewrite !Z.leb_le. lia.
Qed.

Lemma not_le_0_lt (a : number) : finite a -> (a <=? 0)%num = false -> (0 < a)%num.
Proof.
  unfold lt. destruct a as [x| | |]; simpl; try contradiction.
  intros _ H. now rewrite dltb_dleb, H.
Qed.

End NumFacts.

(** ** JSON: what [parse] reads from what [stringify] writes *)

Section JSONFacts.

Import JSON.

Lemma json_ind' (P : json -> Prop) :
  P JNull ->
  (forall b, P (JBool b)) ->
  (forall n, P (JNum n)) ->
  (forall s, P (JStr s)) ->
  (forall l, Forall P l -> P (JArr l)) ->
  (forall ms, Forall (fun kv => P (snd kv)) ms -> P (JObj ms)) ->
  forall v, P v.
Proof.
  intros Hnull Hbool Hnum Hstr Harr Hobj.
  fix IH 1.
  intros [ | b | n | s | l | ms].
  - exact Hnull.
  - apply Hbool.
  - apply Hnum.
  - apply Hstr.
  - apply Harr. induction l as [|x l IHl]; constructor; [apply IH | exact IHl].
  - apply Hobj. induction ms as [|[k x] ms IHms]; constructor; [apply IH | exact IHms].
Qed.

Lemma continues_false (c : ascii) :
  continues c = false ->
  digit_of c = None /\ Ascii.eqb c "."%char = false
  /\ Ascii.eqb c "e"%char = false /\ Ascii.eqb c "E"%char = false.
Proof.
  unfold continues. destruct (digit_of c); [discriminate |].
  intros H. apply orb_false_iff in H as [H HE].
  apply orb_false_iff in H as [Hp He]. auto.
Qed.

Lemma delimited_no_digit (rest : text) : delimited rest -> no_digit rest.
Proof. destruct rest as [|c r]; [trivial | apply continues_false]. Qed.

Lemma read_digits_digits (d : Decimal.uint) (rest : text) :
  no_digit rest -> read_digits (Num.digits d ++ rest) = (d, rest).
Proof.
  intros Hrest.
  induction d; simpl; try (rewrite IHd; reflexivity).
  destruct rest as [|c r]; simpl in *; [reflexivity | now rewrite Hrest].
Qed.

Lemma to_uint_no_leading_zero (p : positive) (d : Decimal.uint) :
  Pos.to_uint p <> Decimal.D0 d.
Proof.
  intros E.
  pose proof (DecimalPos.Unsigned.to_of (Pos.to_uint p)) as Hn.
  rewrite DecimalPos.Unsigned.of_to in Hn. simpl in Hn.
  rewrite E, DecimalFacts.unorm_D0 in Hn.
  assert (d = Decimal.Nil \/ d <> Decimal.Nil) as [-> | Hd]
    by (destruct d; (now left) || (right; discriminate)).
  - exact (DecimalPos.Unsigned.to_uint_nonzero p E).
  - pose proof (DecimalFacts.nb_digits_unorm d Hd) as Hle.
    rewrite <- Hn in Hle. simpl in Hle. lia.
Qed.

Lemma digits_head (d : Decimal.uint) :
  d <> Decimal.Nil ->
  exists c t k, Num.digits d = c :: t /\ digit_of c = Some k.
Proof.
  destruct d; intros H; try congruence; simpl; eauto.
Qed.

Lemma parse_nat_print (p : positive) (rest : text) :
  no_digit rest ->
  parse_nat (Num.digits (Pos.to_uint p) ++ rest) = Some (Npos p, rest).
Proof.
  intros Hrest. unfold parse_nat. rewrite read_digits_digits by exact Hrest.
  pose proof (DecimalPos.Unsigned.of_to p) as Hof.
  change (Pos.of_uint (Pos.to_uint p)) with (N.of_uint (Pos.to_uint p)) in Hof.
  destruct (Pos.to_uint p) as [|d| | | | | | | | | ] eqn:E;
    try (rewrite Hof; reflexivity).
  - exfalso. exact (DecimalPos.Unsigned.to_uint_nonnil p E).
  - exfalso. exact (to_uint_no_leading_zero p d E).
Qed.

Lemma digit_not_minus (c : ascii) k :
  digit_of c = Some k -> Ascii.eqb c "-"%char = false.
Proof.
  intros H. destruct (Ascii.eqb_spec c "-"%char) as [->|]; [discriminate | reflexivity].
Qed.

(** The integer part of a number, written and read back. *)
Lemma parse_nat_print_Z (q : Z) (rest : text) :
  0 <= q -> no_digit rest ->
  parse_nat (Num.print_Z q ++ rest) = Some (Z.to_N q, rest).
Proof.
  intros Hq Hrest. destruct q as [|p|p]; [| | lia].
  - unfold parse_nat. simpl.
    change rest with (Num.digits Decimal.Nil ++ rest).
    now rewrite read_digits_digits.
  - now apply parse_nat_print.
Qed.

(** What is printed for a number that is not negative starts with a
    digit. *)
Lemma print_Z_head (q : Z) :
  0 <= q -> exists c t k, Num.print_Z q = c :: t /\ digit_of c = Some k.
Proof.
  intros Hq. destruct q as [|p|p]; [| | lia].
  - simpl. eauto.
  - exact (digits_head (Pos.to_uint p) (DecimalPos.Unsigned.to_uint_nonnil p)).
Qed.

Lemma digit_value_digit (q : Z) :
  0 <= q < 10 -> digit_value (Num.digit q) = Some q.
Proof.
  intros Hq.
  assert (q = 0 \/ q = 1 \/ q = 2 \/ q = 3 \/ q = 4 \/ q = 5 \/ q = 6 \/ q = 7
          \/ q = 8 \/ q = 9) as H by lia.
  decompose [or] H; subst; reflexivity.
Qed.

(** The decimal places of a number, written and read back. *)
Lemma read_run_fixed (k : nat) (n : Z) (rest : text) (acc : Z) (count : nat) :
  0 <= n -> no_digit rest ->
  read_run (Num.fixed k n ++ rest) acc count
  = (acc * Num.pow10 k + n mod Num.pow10 k, (count + k)%nat, rest).
Proof.
  intros Hn Hrest. revert acc count.
  induction k as [|k IH]; intros acc count.
  - simpl Num.fixed. simpl Num.pow10. rewrite Z.mod_1_r, Z.mul_1_r, Z.add_0_r, Nat.add_0_r.
    destruct rest as [|c r]; [reflexivity |].
    simpl in *. unfold digit_value. now rewrite Hrest.
  - pose proof (pow10_pos k) as Hk.
    change (Num.fixed (S k) n) with (Num.digit (n / Num.pow10 k mod 10) :: Num.fixed k n).
    simpl app. simpl read_run.
    rewrite digit_value_digit by (apply Z.mod_pos_bound; lia).
    rewrite IH. replace (S count + k)%nat with (count + S k)%nat by lia.
    do 2 f_equal.
    change (Num.pow10 (S k)) with (10 * Num.pow10 k).
    rewrite (Z.mul_comm 10 (Num.pow10 k)), Z.rem_mul_r by lia. lia.
Qed.

Lemma parse_fraction_delimited (rest : text) :
  delimited rest -> parse_fraction rest = Some (0, O, rest).
Proof.
  destruct rest as [|c r]; [reflexivity |]. intros H.
  apply continues_false in H as (_ & Hp & _). unfold parse_fraction. now rewrite Hp.
Qed.

Lemma parse_exponent_delimited (rest : text) :
  delimited rest -> parse_exponent rest = Some (0, rest).
Proof.
  destruct rest as [|c r]; [reflexivity |]. intros H.
  apply continues_false in H as (_ & _ & He & HE). unfold parse_exponent.
  now rewrite He, HE.
Qed.

Lemma scaled_0 (m : Z) (k : nat) : Num.scaled m k 0 = Num.norm m k.
Proof.
  unfold Num.scaled. rewrite Z.sub_0_r.
  destruct (Z.leb_spec 0 (Z.of_nat k)); [| lia]. now rewrite Nat2Z.id.
Qed.

(** The digits of a number written out, and read back. *)
Lemma parse_unsigned_print (negative : bool) (a : Z) (k : nat) (rest : text) :
  0 <= a -> delimited rest ->
  parse_unsigned negative (Num.print_plain a k ++ rest)
  = Some (JNum (Num.norm (if negative then - a else a) k), rest).
Proof.
  intros Ha Hrest. pose proof (pow10_pos k) as Hk.
  assert (0 <= a / Num.pow10 k) as Hq by (apply Z.div_pos; lia).
  unfold parse_unsigned, Num.print_plain. rewrite <- app_assoc.
  assert (Z.of_N (Z.to_N (a / Num.pow10 k)) * Num.pow10 k + a mod Num.pow10 k = a) as Ea.
  { rewrite Z2N.id by exact Hq. rewrite Z.mul_comm. symmetry. apply Z.div_mod. lia. }
  destruct k as [|k].
  - rewrite parse_nat_print_Z by (try apply delimited_no_digit; assumption).
    simpl app. rewrite parse_fraction_delimited, parse_exponent_delimited by exact Hrest.
    rewrite scaled_0. rewrite Z.mod_1_r in Ea. now rewrite Ea.
  - rewrite parse_nat_print_Z by (exact Hq || reflexivity).
    change (("."%char :: Num.fixed (S k) a) ++ rest)
      with ("."%char :: Num.fixed (S k) a ++ rest).
    unfold parse_fraction. simpl Ascii.eqb. cbv iota.
    rewrite read_run_fixed by (try apply delimited_no_digit; assumption).
    simpl Nat.add. rewrite Z.mul_0_l, Z.add_0_l.
    rewrite parse_exponent_delimited by exact Hrest.
    rewrite scaled_0. now rewrite Ea.
Qed.

Lemma digit_cases (q : Z) :
  0 <= q < 10 ->
  q = 0 \/ q = 1 \/ q = 2 \/ q = 3 \/ q = 4 \/ q = 5 \/ q = 6 \/ q = 7 \/ q = 8 \/ q = 9.
Proof. lia. Qed.

Lemma digit_of_digit (q : Z) :
  0 <= q < 10 -> exists k, digit_of (Num.digit q) = Some k.
Proof.
  intros Hq. pose proof (digit_cases q Hq) as H.
  decompose [or] H; subst; eexists; reflexivity.
Qed.

(** One digit that is not a zero, read as an integer part. *)
Lemma parse_nat_digit (q : Z) (rest : text) :
  1 <= q < 10 -> no_digit rest ->
  parse_nat (Num.digit q :: rest) = Some (Z.to_N q, rest).
Proof.
  intros Hq Hrest.
  pose proof (read_digits_digits Decimal.Nil rest Hrest) as Hr. simpl in Hr.
  pose proof (digit_cases q ltac:(lia)) as H.
  decompose [or] H; subst; try lia;
    unfold parse_nat; simpl read_digits; rewrite Hr; reflexivity.
Qed.

(** The exponent that [String] writes, read back. *)
Lemma parse_exponent_print (e : Z) (rest : text) :
  no_digit rest ->
  parse_exponent
    ("e"%char :: (if e <? 0 then "-"%char else "+"%char) :: Num.print_Z (Z.abs e) ++ rest)
  = Some (e, rest).
Proof.
  intros Hrest.
  assert (read_digits (Num.print_Z (Z.abs e) ++ rest)
          = (match Z.abs e with
             | Zpos p => Pos.to_uint p
             | _ => Decimal.D0 Decimal.Nil
             end, rest)) as Hr.
  { destruct (Z.abs e) as [|p|p] eqn:E; [| | lia].
    - simpl. pose proof (read_digits_digits Decimal.Nil rest Hrest) as Hn.
      simpl in Hn. now rewrite Hn.
    - now apply read_digits_digits. }
  assert (forall negative : bool,
    match read_digits (Num.print_Z (Z.abs e) ++ rest) with
    | (Decimal.Nil, _) => None
    | (u, r2) =>
        Some (if negative then - Z.of_N (N.of_uint u) else Z.of_N (N.of_uint u), r2)
    end = Some (if negative then - Z.abs e else Z.abs e, rest)) as Hm.
  { intros negative. rewrite Hr. destruct (Z.abs e) as [|p|p] eqn:E; [reflexivity | | lia].
    pose proof (DecimalPos.Unsigned.of_to p) as Hof.
    change (Pos.of_uint (Pos.to_uint p)) with (N.of_uint (Pos.to_uint p)) in Hof.
    destruct (Pos.to_uint p) eqn:Eu; try (rewrite Hof; reflexivity).
    exfalso. exact (DecimalPos.Unsigned.to_uint_nonnil p Eu). }
  unfold parse_exponent. simpl Ascii.eqb. cbv iota. simpl orb. cbv iota.
  destruct (Z.ltb_spec e 0) as [Hneg | Hpos].
  - simpl Ascii.eqb. cbv iota beta. rewrite (Hm true). do 2 f_equal. lia.
  - simpl Ascii.eqb. cbv iota beta. rewrite (Hm false). do 2 f_equal. lia.
Qed.

(** The digits of a number written with an exponent, and read back. *)
Lemma parse_unsigned_exponential (negative : bool) (s : Z) (k : nat) (e : Z)
    (rest : text) :
  (1 <= k)%nat -> Num.pow10 (k - 1) <= s < Num.pow10 k -> delimited rest ->
  parse_unsigned negative (Num.print_exponential s k e ++ rest)
  = Some (JNum (Num.scaled (if negative then - s else s) (k - 1) e), rest).
Proof.
  intros Hk Hs Hrest. pose proof (pow10_pos (k - 1)) as Hp.
  assert (Num.pow10 k = 10 * Num.pow10 (k - 1)) as Ek
    by (replace k with (S (k - 1)) at 1 by lia; reflexivity).
  assert (1 <= s / Num.pow10 (k - 1) < 10) as Hq.
  { split.
    - apply Z.div_le_lower_bound; lia.
    - apply Z.div_lt_upper_bound; lia. }
  assert (Z.of_N (Z.to_N (s / Num.pow10 (k - 1))) * Num.pow10 (k - 1)
          + s mod Num.pow10 (k - 1) = s) as Es.
  { rewrite Z2N.id by lia. rewrite Z.mul_comm. symmetry. apply Z.div_mod. lia. }
  apply delimited_no_digit in Hrest.
  unfold parse_unsigned, Num.print_exponential.
  destruct (k - 1)%nat as [|j] eqn:Ej.
  - simpl app. rewrite parse_nat_digit by (exact Hq || reflexivity).
    unfold parse_fraction. simpl Ascii.eqb. cbv iota.
    rewrite parse_exponent_print by exact Hrest.
    change (Num.pow10 0) with 1 in *. rewrite Z.mod_1_r in Es. now rewrite Es.
  - change ((Num.digit ?q :: ?l) ++ rest) with (Num.digit q :: l ++ rest).
    rewrite <- app_assoc.
    change (("."%char :: ?f) ++ ?t) with ("."%char :: f ++ t).
    change (("e"%char :: ?c :: ?l) ++ rest) with ("e"%char :: c :: l ++ rest).
    rewrite parse_nat_digit by (exact Hq || reflexivity).
    unfold parse_fraction. simpl Ascii.eqb. cbv iota.
    rewrite read_run_fixed by (lia || reflexivity).
    simpl Nat.add. rewrite Z.mul_0_l, Z.add_0_l.
    rewrite parse_exponent_print by exact Hrest.
    now rewrite Es.
Qed.

(** The sign and the first digit of what [String] writes, and the text
    after the sign. *)
Lemma print_cases (d : Num.decimal) :
  exists t,
    Num.print d = (if Num.mantissa d <? 0 then ["-"%char] else []) ++ t
    /\ (exists c t' k, t = c :: t' /\ digit_of c = Some k)
    /\ forall rest,
         delimited rest ->
         parse_unsigned (Num.mantissa d <? 0) (t ++ rest) = Some (JNum d, rest).
Proof.
  unfold Num.print.
  set (a := Z.abs (Num.mantissa d)).
  set (n := Z.of_nat (Num.nb_digits a) - Z.of_nat (Num.places d)).
  assert ((if Num.mantissa d <? 0 then - a else a) = Num.mantissa d) as Esign
    by (subst a; destruct (Z.ltb_spec (Num.mantissa d) 0); lia).
  destruct ((-6 <? n) && (n <=? 21)) eqn:Eplain.
  - exists (Num.print_plain a (Num.places d)). split; [reflexivity |]. split.
    + assert (0 <= a / Num.pow10 (Num.places d)) as Hq
        by (apply Z.div_pos; [subst a; lia | apply pow10_pos]).
      destruct (print_Z_head _ Hq) as (c & t & k & E & Hc).
      unfold Num.print_plain. rewrite E. simpl. eauto.
    + intros rest Hrest.
      rewrite parse_unsigned_print by (subst a; lia || exact Hrest).
      now rewrite Esign, norm_id.
  - assert (Num.mantissa d <> 0) as Hm.
    { intros E0. destruct d as [m p H]. simpl in *. subst m.
      destruct p as [|p]; [| discriminate H]. discriminate Eplain. }
    assert (0 < a) as Ha by (subst a; lia).
    destruct (significand_spec a Ha) as (_ & [Hk1 _] & Hs).
    pose proof (scaled_significand d Hm) as Hd. cbv zeta in Hd. fold a in Hd.
    fold n in Hd.
    set (r := Num.norm a (Num.nb_digits a)) in *.
    exists (Num.print_exponential (Num.mantissa r) (Num.places r) (n - 1)).
    split; [reflexivity |]. split.
    + assert (0 <= Num.mantissa r / Num.pow10 (Num.places r - 1) < 10) as Hq.
      { pose proof (pow10_pos (Num.places r - 1)).
        assert (Num.pow10 (Num.places r) = 10 * Num.pow10 (Num.places r - 1)) as Ek
          by (replace (Num.places r) with (S (Num.places r - 1)) at 1 by lia; reflexivity).
        split; [apply Z.div_pos; lia | apply Z.div_lt_upper_bound; lia]. }
      destruct (digit_of_digit _ Hq) as [k Hk].
      unfold Num.print_exponential. eauto.
    + intros rest Hrest.
      rewrite parse_unsigned_exponential by assumption.
      now rewrite Hd.
Qed.

(** What [String] writes for a finite number, [JSON.parse] reads as that
    number. *)
Lemma parse_number_print (d : Num.decimal) (rest : text) :
  delimited rest ->
  parse_number (Num.print d ++ rest) = Some (JNum d, rest).
Proof.
  intros Hrest.
  destruct (print_cases d) as (t & -> & (c & t' & k & -> & Hc) & Hp).
  specialize (Hp rest Hrest). rewrite <- app_assoc.
  destruct (Num.mantissa d <? 0).
  - change (["-"%char] ++ ?l) with ("-"%char :: l).
    unfold parse_number. simpl Ascii.eqb. cbv iota. exact Hp.
  - change ([] ++ ?l) with l. change ((c :: t') ++ rest) with (c :: t' ++ rest) in *.
    unfold parse_number. rewrite (digit_not_minus c k Hc). exact Hp.
Qed.

(** What is printed for a number starts with a digit or with the sign. *)
Lemma print_number_head (d : Num.decimal) :
  exists c t, Num.print d = c :: t /\ ((exists k, digit_of c = Some k) \/ c = "-"%char).
Proof.
  destruct (print_cases d) as (t & -> & (c & t' & k & -> & Hc) & _).
  destruct (Num.mantissa d <? 0); simpl; eauto 6.
Qed.

(** One character of a string, written and read back. *)
Lemma parse_chars_escape (c : ascii) (r : text) :
  parse_chars (escape_char c ++ r) =
  match parse_chars r with
  | Some (cs, rest) => Some (c :: cs, rest)
  | None => None
  end.
Proof.
  destruct c as [[] [] [] [] [] [] [] []]; reflexivity.
Qed.

Lemma parse_chars_quote (s rest : text) :
  parse_chars (flat_map escape_char s ++ dquote :: rest) = Some (s, rest).
Proof.
  induction s as [|c s IH]; simpl.
  - reflexivity.
  - rewrite <- app_assoc, parse_chars_escape, IH. reflexivity.
Qed.

Lemma digit_facts (c : ascii) k :
  digit_of c = Some k ->
  is_ws c = false /\ Ascii.eqb c "]"%char = false /\ Ascii.eqb c "}"%char = false.
Proof.
  destruct c as [[] [] [] [] [] [] [] []]; intros H;
    try (vm_compute in H; discriminate H); repeat split; reflexivity.
Qed.

(** A text that starts with a sign or a digit is read as a number. *)
Lemma parse_value_number (fuel : nat) (c : ascii) (r : text) :
  (exists k, digit_of c = Some k) \/ c = "-"%char ->
  parse_value (S fuel) (c :: r) = parse_number (c :: r).
Proof.
  destruct c as [[] [] [] [] [] [] [] []]; intros [[k H] | H];
    try (vm_compute in H; discriminate H); reflexivity.
Qed.

Lemma parse_value_string (fuel : nat) (r : text) :
  parse_value (S fuel) (dquote :: r) =
  match parse_chars r with
  | Some (cs, rest) => Some (JStr (string_of_list_ascii cs), rest)
  | None => None
  end.
Proof. reflexivity. Qed.

Lemma parse_value_array (fuel : nat) (r : text) :
  parse_value (S fuel) ("["%char :: r) =
  match skip_ws r with
  | [] => None
  | c' :: r' =>
      if Ascii.eqb c' "]"%char then Some (JArr [], r')
      else match parse_elements fuel r with
           | Some (vs, rest) => Some (JArr vs, rest)
           | None => None
           end
  end.
Proof. reflexivity. Qed.

Lemma parse_value_object (fuel : nat) (r : text) :
  parse_value (S fuel) ("{"%char :: r) =
  match skip_ws r with
  | [] => None
  | c' :: r' =>
      if Ascii.eqb c' "}"%char then Some (JObj [], r')
      else match parse_members fuel r with
           | Some (ms, rest) => Some (JObj ms, rest)
           | None => None
           end
  end.
Proof. reflexivity. Qed.

Lemma parse_elements_S (fuel : nat) (s : text) :
  parse_elements (S fuel) s =
  match parse_value fuel s with
  | None => None
  | Some (v, r) =>
      match skip_ws r with
      | [] => None
      | c :: r' =>
          if Ascii.eqb c ","%char then
            match parse_elements fuel r' with
            | Some (vs, rest) => Some (v :: vs, rest)
            | None => None
            end
          else if Ascii.eqb c "]"%char then Some ([v], r')
          else None
      end
  end.
Proof. reflexivity. Qed.

Lemma parse_members_S (fuel : nat) (r0 : text) :
  parse_members (S fuel) (dquote :: r0) =
  match parse_chars r0 with
  | None => None
  | Some (k, r1) =>
      match skip_ws r1 with
      | [] => None
      | colon :: r2 =>
          if Ascii.eqb colon ":"%char then
            match parse_value fuel r2 with
            | None => None
            | Some (v, r3) =>
                match skip_ws r3 with
                | [] => None
                | c :: r4 =>
                    if Ascii.eqb c ","%char then
                      match parse_members fuel r4 with
                      | Some (ms, rest) => Some ((string_of_list_ascii k, v) :: ms, rest)
                      | None => None
                      end
                    else if Ascii.eqb c "}"%char then
                      Some ([(string_of_list_ascii k, v)], r4)
                    else None
                end
            end
          else None
      end
  end.
Proof. reflexivity. Qed.

(** Every printed value starts with a character that is neither white
    space nor a closing bracket. *)
Lemma print_head (v : json) :
  exists c t, print v = c :: t /\
    is_ws c = false /\ Ascii.eqb c "]"%char = false /\ Ascii.eqb c "}"%char = false.
Proof.
  destruct v as [ | [] | d | s | l | ms]; simpl;
    try (do 2 eexists; split; [reflexivity | repeat split; reflexivity]).
  destruct (print_number_head d) as (c & t & E & [[k Hk] | ->]).
  - exists c, t. split; [exact E | exact (digit_facts c k Hk)].
  - exists "-"%char, t. split; [exact E | repeat split; reflexivity].
Qed.

Lemma parse_elements_print (l : list json) :
  Forall reads_back l -> l <> [] ->
  forall fuel rest,
    (length (sep_by print l) < fuel)%nat ->
    parse_elements fuel (sep_by print l ++ "]"%char :: rest) = Some (l, rest).
Proof.
  induction 1 as [|v l Hv Hl IH]; [congruence | intros _ fuel rest Hfuel].
  destruct fuel as [|fuel]; [lia |]. rewrite parse_elements_S.
  destruct l as [|v' l'].
  - change (sep_by print [v]) with (print v) in *.
    rewrite Hv by first [lia | reflexivity]. reflexivity.
  - change (sep_by print (v :: v' :: l'))
      with (print v ++ ","%char :: sep_by print (v' :: l')) in *.
    remember (sep_by print (v' :: l')) as tail eqn:Etail.
    rewrite length_app in Hfuel.
    change (length (","%char :: tail)) with (S (length tail)) in Hfuel.
    rewrite <- app_assoc. rewrite Hv by first [lia | reflexivity].
    simpl. rewrite IH by (try discriminate; lia). reflexivity.
Qed.

Lemma parse_members_print (ms : list (string * json)) :
  Forall (fun kv => reads_back (snd kv)) ms -> ms <> [] ->
  forall fuel rest,
    (length (sep_by (fun kv => quote (fst kv) ++ ":"%char :: print (snd kv)) ms) < fuel)%nat ->
    parse_members fuel
      (sep_by (fun kv => quote (fst kv) ++ ":"%char :: print (snd kv)) ms
       ++ "}"%char :: rest) = Some (ms, rest).
Proof.
  set (member := fun kv : string * json => quote (fst kv) ++ ":"%char :: print (snd kv)).
  assert (Hmember : forall k v fuel rest1,
    reads_back v -> (length (member (k, v)) <= fuel)%nat -> delimited rest1 ->
    parse_members (S fuel) (member (k, v) ++ rest1) =
    match skip_ws rest1 with
    | [] => None
    | c :: r4 =>
        if Ascii.eqb c ","%char then
          match parse_members fuel r4 with
          | Some (ms, rest) => Some ((k, v) :: ms, rest)
          | None => None
          end
        else if Ascii.eqb c "}"%char then Some ([(k, v)], r4)
        else None
    end).
  { intros k v fuel rest1 Hv Hlen Hrest1. unfold member, quote in *. simpl fst in *; simpl snd in *.
    simpl app. rewrite parse_members_S.
    rewrite <- !app_assoc. simpl app. rewrite parse_chars_quote.
    simpl skip_ws. simpl Ascii.eqb. cbv iota.
    rewrite Hv; [ | | exact Hrest1].
    - rewrite string_of_list_ascii_of_string. reflexivity.
    - simpl in Hlen. rewrite !length_app in Hlen. simpl in Hlen. lia. }
  induction 1 as [|[k v] l Hv Hl IH]; [congruence | intros _ fuel rest Hfuel].
  destruct fuel as [|fuel]; [lia |].
  destruct l as [|kv' l'].
  - change (sep_by member [(k, v)]) with (member (k, v)) in *.
    rewrite Hmember by first [exact Hv | lia | reflexivity]. reflexivity.
  - change (sep_by member ((k, v) :: kv' :: l'))
      with (member (k, v) ++ ","%char :: sep_by member (kv' :: l')) in *.
    remember (sep_by member (kv' :: l')) as tail eqn:Etail.
    rewrite length_app in Hfuel.
    change (length (","%char :: tail)) with (S (length tail)) in Hfuel.
    rewrite <- app_assoc. rewrite Hmember by first [exact Hv | lia | reflexivity].
    simpl. rewrite IH by (try discriminate; lia). reflexivity.
Qed.

Lemma parse_value_print (v : json) : reads_back v.
Proof.
  induction v as [ | b | n | s | l IH | ms IH] using json_ind';
    intros fuel rest Hfuel Hrest;
    (destruct fuel as [|fuel];
     [match type of Hfuel with
      | (length (print ?w) <= _)%nat =>
          destruct (print_head w) as (c & t & E & _); rewrite E in Hfuel;
          simpl in Hfuel; lia
      end |]).
  - reflexivity.
  - destruct b; reflexivity.
  - destruct (print_number_head n) as (c & t & E & Hc).
    pose proof (parse_number_print n rest Hrest) as Hp.
    simpl print in *. rewrite E in *. simpl app in *.
    rewrite parse_value_number by exact Hc. exact Hp.
  - simpl print. unfold quote. simpl app. rewrite <- app_assoc. simpl app.
    rewrite parse_value_string, parse_chars_quote, string_of_list_ascii_of_string.
    reflexivity.
  - destruct l as [|v l]; [reflexivity |].
    change (print (JArr (v :: l)))
      with ("["%char :: sep_by print (v :: l) ++ ["]"%char]) in *.
    assert (exists c t, sep_by print (v :: l) = c :: t /\ is_ws c = false
                        /\ Ascii.eqb c "]"%char = false) as (c & t & E & Hws & Hc).
    { destruct (print_head v) as (c & t & E & Hws & Hc & _).
      destruct l; simpl; rewrite E; simpl; eauto 6. }
    remember (sep_by print (v :: l)) as items eqn:Eitems.
    simpl length in Hfuel. rewrite length_app in Hfuel. simpl in Hfuel.
    simpl app. rewrite <- app_assoc. simpl app. rewrite parse_value_array.
    subst items.
    rewrite parse_elements_print by first [discriminate | exact IH | lia].
    rewrite E. simpl. rewrite Hws, Hc. reflexivity.
  - destruct ms as [|[k v] ms]; [reflexivity |].
    set (member := fun kv : string * json => quote (fst kv) ++ ":"%char :: print (snd kv)).
    change (print (JObj ((k, v) :: ms)))
      with ("{"%char :: sep_by member ((k, v) :: ms) ++ ["}"%char]) in *.
    assert (exists t, sep_by member ((k, v) :: ms) = dquote :: t) as (t & E).
    { destruct ms; simpl; eauto. }
    remember (sep_by member ((k, v) :: ms)) as items eqn:Eitems.
    simpl length in Hfuel. rewrite length_app in Hfuel. simpl in Hfuel.
    simpl app. rewrite <- app_assoc. simpl app. rewrite parse_value_object.
    subst items. unfold member in *.
    rewrite parse_members_print by first [discriminate | exact IH | lia].
    rewrite E. reflexivity.
Qed.

(** [JSON.parse(JSON.stringify(v))] is [v]. *)
Lemma parse_stringify (v : json) : parse (stringify v) = Normal v.
Proof.
  unfold parse, stringify. rewrite list_ascii_of_string_of_list_ascii.
  pose proof (parse_value_print v (S (length (print v))) [] ltac:(lia) I) as H.
  rewrite app_nil_r in H. rewrite H. reflexivity.
Qed.

(** A text with white space, escapes and nesting, and three texts that
    are not JSON. *)
Example parse_text :
  parse (lit " [ { `a` : `x\nA\``, `b` : [] } , -20 , true , null ] ")
  = Normal (JArr [JObj [("a", JStr (lit "x
A`")); ("b", JArr [])]; JNum (Num.of_Z (-20)); JBool true; JNull]).
Proof. vm_compute. reflexivity. Qed.

Example parse_rejects :
  parse "{" = Throw SyntaxError
  /\ parse "[1,]" = Throw SyntaxError
  /\ parse "" = Throw SyntaxError
  /\ parse "01" = Throw SyntaxError
  /\ parse "1." = Throw SyntaxError
  /\ parse ".5" = Throw SyntaxError
  /\ parse "+1" = Throw SyntaxError
  /\ parse "1e" = Throw SyntaxError
  /\ parse "NaN" = Throw SyntaxError.
Proof. vm_compute. repeat split. Qed.

(** Numbers with a fraction and with an exponent, read and written. *)
Example parse_numbers :
  parse "[89.99, -0.50, 1e3, 1.5E-2, -0]"
  = Normal (JArr [JNum (Num.norm 8999 2); JNum (Num.norm (-5) 1); JNum (Num.of_Z 1000);
                  JNum (Num.norm 15 3); JNum (Num.of_Z 0)])
  /\ stringify (JArr [JNum (Num.norm 8999 2); JNum (Num.norm 15 8);
                      JNum (Num.of_Z (10 ^ 21)); JNum (Num.norm (-5) 1)])
     = "[89.99,1.5e-7,1e+21,-0.5]".
Proof. vm_compute. split; reflexivity. Qed.

End JSONFacts.

(** ** The cart manager *)

Section CartFacts.

Import JSON CartManager.

Local Open Scope num_scope.

Lemma strict_eq_eq (a b : ident) : strict_eq a b = true <-> a = b.
Proof.
  destruct a as [n|s], b as [m|t]; simpl; split; intros H;
    try discriminate; try congruence.
  - apply Z.eqb_eq in H. now subst.
  - injection H as ->. apply Z.eqb_refl.
  - apply String.eqb_eq in H. now subst.
  - injection H as ->. apply String.eqb_refl.
Qed.

Lemma has_id_eq (productId : ident) (item : LineItem) :
  has_id productId item = true <-> id item = productId.
Proof. apply strict_eq_eq. Qed.

Lemma find_app_None (productId : ident) (a b : list LineItem) :
  find productId a = None -> find productId (a ++ b) = find productId b.
Proof.
  unfold find. induction a as [|x a IH]; simpl; [reflexivity |].
  destruct (has_id productId x); [discriminate | exact IH].
Qed.

(** What [find] returns is the first element with the identifier. *)
Lemma find_split (productId : ident) (c : list LineItem) (existing : LineItem) :
  find productId c = Some existing ->
  exists before after,
    c = before ++ existing :: after /\
    find productId before = None /\ has_id productId existing = true.
Proof.
  unfold find. induction c as [|x c IH]; simpl; [discriminate |].
  destruct (has_id productId x) eqn:Hx.
  - intros [= <-]. exists [], c. auto.
  - intros H. destruct (IH H) as (before & after & -> & Hb & He).
    exists (x :: before), after. simpl. rewrite Hx. auto.
Qed.

(** The first element with the identifier is what [find] returns. *)
Lemma find_first (productId : ident) (before after : list LineItem)
    (existing : LineItem) :
  find productId before = None -> id existing = productId ->
  find productId (before ++ existing :: after) = Some existing.
Proof.
  intros Hb Hi. rewrite (find_app_None _ _ _ Hb). unfold find. simpl.
  now rewrite (proj2 (has_id_eq _ _) Hi).
Qed.

Lemma assign_split (productId : ident) (f : LineItem -> LineItem)
    (before after : list LineItem) (existing : LineItem) :
  find productId before = None -> has_id productId existing = true ->
  assign productId f (before ++ existing :: after) = before ++ f existing :: after.
Proof.
  unfold find. intros Hb He. induction before as [|x before IH]; simpl in *.
  - now rewrite He.
  - destruct (has_id productId x); [discriminate |]. now rewrite IH.
Qed.

Lemma has_id_set_quantity (productId : ident) (q : Num.number) (item : LineItem) :
  has_id productId (set_quantity q item) = has_id productId item.
Proof. reflexivity. Qed.

Lemma count_id_app (productId : ident) (a b : list LineItem) :
  count_id productId (a ++ b) = (count_id productId a + count_id productId b)%nat.
Proof. unfold count_id. now rewrite List.filter_app, length_app. Qed.

Lemma count_id_None (productId : ident) (c : list LineItem) :
  find productId c = None -> count_id productId c = 0%nat.
Proof.
  unfold find, count_id. induction c as [|x c IH]; simpl; [reflexivity |].
  destruct (has_id productId x); [discriminate | exact IH].
Qed.

Lemma filter_assign (productId : ident) (f : LineItem -> LineItem) (c : list LineItem) :
  (forall item, id (f item) = id item) ->
  List.filter (fun item => negb (strict_eq (id item) productId)) (assign productId f c)
  = List.filter (fun item => negb (strict_eq (id item) productId)) c.
Proof.
  intros Hf. induction c as [|x c IH]; simpl; [reflexivity |].
  unfold has_id. destruct (strict_eq (id x) productId) eqn:Hx; simpl.
  - now rewrite Hf, Hx.
  - now rewrite Hx, IH.
Qed.

Lemma filter_absent (productId : ident) (c : list LineItem) :
  find productId c = None ->
  List.filter (fun item => negb (strict_eq (id item) productId)) c = c.
Proof.
  unfold find, has_id. induction c as [|x c IH]; simpl; [reflexivity |].
  destruct (strict_eq (id x) productId); simpl; [discriminate |].
  intros H. now rewrite IH.
Qed.

Lemma find_filter (productId : ident) (c : list LineItem) :
  find productId (List.filter (fun item => negb (strict_eq (id item) productId)) c) = None.
Proof.
  unfold find, has_id. induction c as [|x c IH]; simpl; [reflexivity |].
  destruct (strict_eq (id x) productId) eqn:Hx; simpl; [exact IH |].
  now rewrite Hx.
Qed.

(** The filter of [removeProduct] on a cart where one line item has the
    identifier. *)
Lemma filter_one (productId : ident) (before after : list LineItem)
    (existing : LineItem) :
  id existing = productId ->
  find productId before = None -> find productId after = None ->
  List.filter (fun item => negb (strict_eq (id item) productId))
    (before ++ existing :: after)
  = before ++ after.
Proof.
  intros Hi Hb Ha. rewrite List.filter_app. simpl.
  rewrite (proj2 (strict_eq_eq _ _) Hi). simpl.
  now rewrite !filter_absent.
Qed.

(** The methods change the cart field as follows; the other fields take
    part in [saveCart] and [updateCartUI] only. *)
Lemma cart_addProduct (product : Product) (st : State) :
  cart (addProduct product st) =
  match find (product_id product) (cart st) with
  | Some _ =>
      assign (product_id product)
        (fun item => set_quantity (quantity item + quantity_or_1 product) item) (cart st)
  | None => cart st ++ [spread product (quantity_or_1 product)]
  end.
Proof. reflexivity. Qed.

Lemma cart_removeProduct (productId : ident) (st : State) :
  cart (removeProduct productId st) =
  List.filter (fun item => negb (strict_eq (id item) productId)) (cart st).
Proof. reflexivity. Qed.

Lemma has_id_refl (item : LineItem) : has_id (id item) item = true.
Proof. now apply has_id_eq. Qed.

Lemma addProduct_cases (product : Product) (st : State) :
  match find (product_id product) (cart st) with
  | Some existing =>
      exists before after,
        cart st = before ++ existing :: after /\
        find (product_id product) before = None /\
        id existing = product_id product /\
        cart (addProduct product st)
        = before ++ set_quantity (quantity existing + quantity_or_1 product) existing :: after
  | None =>
      cart (addProduct product st) = cart st ++ [spread product (quantity_or_1 product)]
  end.
Proof.
  rewrite cart_addProduct.
  destruct (find (product_id product) (cart st)) as [existing|] eqn:E; [| reflexivity].
  destruct (find_split _ _ _ E) as (before & after & Hc & Hb & He).
  exists before, after. repeat split; auto.
  - now apply has_id_eq.
  - rewrite Hc. now rewrite assign_split.
Qed.

(** [addProduct] on a cart whose first line item with the identifier is
    known. *)
Lemma cart_addProduct_existing (product : Product) (st : State)
    (before after : list LineItem) (existing : LineItem) :
  cart st = before ++ existing :: after ->
  id existing = product_id product ->
  find (product_id product) before = None ->
  cart (addProduct product st)
  = before ++ set_quantity (quantity existing + quantity_or_1 product) existing :: after.
Proof.
  intros Hc Hi Hb. rewrite cart_addProduct, Hc, (find_first _ _ _ _ Hb Hi).
  now rewrite assign_split by (exact Hb || now apply has_id_eq).
Qed.

(** [updateQuantity] on a cart whose first line item with the identifier
    is known, for a quantity that is not [<= 0]. *)
Lemma cart_updateQuantity_existing (productId : ident) (q : Num.number) (st : State)
    (before after : list LineItem) (existing : LineItem) :
  cart st = before ++ existing :: after ->
  id existing = productId ->
  find productId before = None ->
  (q <=? 0) = false ->
  cart (updateQuantity productId q st) = before ++ set_quantity q existing :: after.
Proof.
  intros Hc Hi Hb Hq. unfold updateQuantity.
  rewrite Hc, (find_first _ _ _ _ Hb Hi), Hq. simpl cart.
  now rewrite assign_split by (exact Hb || now apply has_id_eq).
Qed.

Lemma updateQuantity_removes (productId : ident) (q : Num.number) (st : State)
    (existing : LineItem) :
  find productId (cart st) = Some existing -> q <= 0 ->
  updateQuantity productId q st = removeProduct productId st.
Proof.
  intros E Hq. unfold updateQuantity. rewrite E, Hq.
  unfold removeProduct. simpl cart. now rewrite filter_assign.
Qed.

Lemma count_id_not_In (productId : ident) (c : list LineItem) :
  ~ In productId (map id c) -> count_id productId c = 0%nat.
Proof.
  unfold count_id. induction c as [|x c IH]; simpl; [reflexivity |].
  intros Hn. destruct (has_id productId x) eqn:Hx.
  - exfalso. apply Hn. left. now apply has_id_eq.
  - apply IH. tauto.
Qed.

Lemma count_id_replace (productId : ident) (q : Num.number)
    (before after : list LineItem) (existing : LineItem) :
  count_id productId (before ++ set_quantity q existing :: after)
  = count_id productId (before ++ existing :: after).
Proof.
  unfold count_id. rewrite !List.filter_app. simpl.
  rewrite has_id_set_quantity, !length_app.
  now destruct (has_id productId existing).
Qed.

(** C2: [addProduct] adds the added quantity ([product.quantity || 1]) to
    the quantity of the first line item that has the product's identifier,
    leaves every other line item as it is, and so keeps the number of line
    items with that identifier; when no line item has the identifier it
    appends one, made of the product's fields and the added quantity. In
    a cart with at most one line item per identifier, exactly one line
    item has the product's identifier afterwards. Adding quantity 2 and
    then quantity 3 of one identifier to an empty cart gives a single
    line item of quantity 5, which puts 5 times its unit price in the
    total. *)
Theorem addProduct_merges_or_inserts (product : Product) (st : State) :
  match find (product_id product) (cart st) with
  | Some existing =>
      exists before after,
        cart st = before ++ existing :: after /\
        find (product_id product) before = None /\
        id existing = product_id product /\
        cart (addProduct product st)
        = before ++ set_quantity (quantity existing + quantity_or_1 product) existing :: after /\
        count_id (product_id product) (cart (addProduct product st))
        = count_id (product_id product) (cart st)
  | None =>
      cart (addProduct product st) = cart st ++ [spread product (quantity_or_1 product)] /\
      count_id (product_id product) (cart (addProduct product st)) = 1%nat
  end
  /\ (List.NoDup (map id (cart st)) ->
      count_id (product_id product) (cart (addProduct product st)) = 1%nat)
  /\ forall i n d pr b n' d' pr' b' storage pg,
       let first := mkProduct i n d pr b (Some 2) in
       let second := mkProduct i n' d' pr' b' (Some 3) in
       let st' := addProduct second (addProduct first (mkState [] storage pg)) in
       cart st' = [mkLineItem i n d pr b 5] /\ totalPrice (cart st') = 5 * pr.
Proof.
  assert (count_id (product_id product) [spread product (quantity_or_1 product)] = 1%nat)
    as Hnew.
  { unfold count_id. simpl. unfold has_id. simpl.
    now rewrite (proj2 (strict_eq_eq _ _) eq_refl). }
  pose proof (addProduct_cases product st) as H.
  split; [| split].
  - destruct (find (product_id product) (cart st)) as [existing|] eqn:E.
    + destruct H as (before & after & Hc & Hb & Hi & Hc').
      exists before, after. repeat split; auto.
      rewrite Hc', Hc. apply count_id_replace.
    + split; [exact H |]. now rewrite H, count_id_app, (count_id_None _ _ E).
  - intros Hn.
    destruct (find (product_id product) (cart st)) as [existing|] eqn:E.
    + destruct H as (before & after & Hc & Hb & Hi & ->).
      rewrite count_id_replace, count_id_app, (count_id_None _ _ Hb).
      rewrite Hc, map_app in Hn. simpl in Hn. apply List.NoDup_remove_2 in Hn.
      change (existing :: after) with ([existing] ++ after).
      rewrite count_id_app, (count_id_not_In _ after).
      * unfold count_id. simpl. now rewrite (proj2 (has_id_eq _ _) Hi).
      * rewrite <- Hi. intros Hin. apply Hn, in_or_app. now right.
    + now rewrite H, count_id_app, (count_id_None _ _ E).
  - intros i n d pr b n' d' pr' b' storage pg first second st'.
    assert (cart st' = [mkLineItem i n d pr b 5]) as E.
    { subst st'. rewrite cart_addProduct. rewrite cart_addProduct. simpl.
      unfold has_id. simpl. now rewrite (proj2 (strict_eq_eq i i) eq_refl). }
    split; [exact E |]. rewrite E.
    change (totalPrice [mkLineItem i n d pr b 5]) with (0 + pr * 5).
    now rewrite add_0_l, mul_comm.
Qed.

Lemma addProduct_merges_or_inserts_witness :
  List.NoDup (map id (cart (Samples.stateOf [Samples.itemY; Samples.itemX 2])))
  /\ count_id (IdNum 1)
       (cart (addProduct (Samples.productX (Some 3))
                (Samples.stateOf [Samples.itemY; Samples.itemX 2]))) = 1%nat.
Proof.
  assert (List.NoDup (map id (cart (Samples.stateOf [Samples.itemY; Samples.itemX 2]))))
    as Hn.
  { repeat constructor; simpl; intros H; decompose [or] H; discriminate || contradiction. }
  split; [exact Hn |].
  exact (proj1 (proj2 (addProduct_merges_or_inserts (Samples.productX (Some 3))
                         (Samples.stateOf [Samples.itemY; Samples.itemX 2]))) Hn).
Defined.

(** C10: a product whose [quantity] is absent or 0 (or NaN, the other
    falsy number) is added with quantity exactly 1: the first line item
    that has its identifier keeps its fields and gets its quantity plus
    1, and with no such line item a new one is appended, with the
    product's fields and quantity 1. *)
Theorem addProduct_falsy_quantity_adds_one (product : Product) (st : State) :
  product_quantity product = None
  \/ product_quantity product = Some 0
  \/ product_quantity product = Some Num.NaN ->
  (forall before existing after,
     cart st = before ++ existing :: after ->
     id existing = product_id product ->
     find (product_id product) before = None ->
     cart (addProduct product st)
     = before
       ++ mkLineItem (id existing) (name existing) (description existing)
            (price existing) (badge existing) (quantity existing + 1)
       :: after)
  /\ (find (product_id product) (cart st) = None ->
      cart (addProduct product st)
      = cart st
        ++ [mkLineItem (product_id product) (product_name product)
              (product_description product) (product_price product)
              (product_badge product) 1]).
Proof.
  intros Hq.
  assert (quantity_or_1 product = 1) as E1
    by (unfold quantity_or_1; destruct Hq as [-> | [-> | ->]]; reflexivity).
  split.
  - intros before existing after Hc Hi Hb.
    rewrite (cart_addProduct_existing _ _ _ _ _ Hc Hi Hb), E1. reflexivity.
  - intros E. rewrite cart_addProduct, E, E1. reflexivity.
Qed.

Lemma addProduct_falsy_quantity_adds_one_witness :
  (product_quantity (Samples.productX (Some 0)) = None
   \/ product_quantity (Samples.productX (Some 0)) = Some 0
   \/ product_quantity (Samples.productX (Some 0)) = Some Num.NaN)
  /\ cart (addProduct (Samples.productX (Some 0))
             (Samples.stateOf [Samples.itemY; Samples.itemX 2]))
     = [Samples.itemY; mkLineItem (IdNum 1) "X" None 10 None 3]
  /\ cart (addProduct (Samples.productX (Some 0)) (Samples.stateOf [Samples.itemY]))
     = [Samples.itemY; mkLineItem (IdNum 1) "X" None 10 None 1].
Proof.
  split; [right; left; reflexivity |]. split.
  - exact (proj1 (addProduct_falsy_quantity_adds_one (Samples.productX (Some 0))
                    (Samples.stateOf [Samples.itemY; Samples.itemX 2])
                    (or_intror (or_introl eq_refl)))
             [Samples.itemY] (Samples.itemX 2) [] eq_refl eq_refl eq_refl).
  - exact (proj2 (addProduct_falsy_quantity_adds_one (Samples.productX (Some 0))
                    (Samples.stateOf [Samples.itemY])
                    (or_intror (or_introl eq_refl)))
             eq_refl).
Defined.

(** C4: [removeProduct] of an identifier that no line item has leaves the
    list of line items as it is; when one line item has the identifier,
    that line item and nothing else is deleted. The method is total: no
    call raises an error. *)
Theorem removeProduct_deletes_match (productId : ident) (st : State) :
  (find productId (cart st) = None ->
   cart (removeProduct productId st) = cart st)
  /\ (forall before existing after,
        cart st = before ++ existing :: after ->
        id existing = productId ->
        find productId before = None -> find productId after = None ->
        cart (removeProduct productId st) = before ++ after).
Proof.
  rewrite cart_removeProduct. split.
  - apply filter_absent.
  - intros before existing after -> Hi Hb Ha.
    rewrite List.filter_app. simpl.
    rewrite (proj2 (strict_eq_eq _ _) Hi). simpl.
    now rewrite !filter_absent.
Qed.

Lemma removeProduct_deletes_match_witness :
  cart (removeProduct (IdNum 99) (Samples.stateOf [Samples.itemX 2; Samples.itemY]))
  = [Samples.itemX 2; Samples.itemY]
  /\ cart (removeProduct (IdNum 1) (Samples.stateOf [Samples.itemX 2; Samples.itemY]))
     = [Samples.itemY].
Proof.
  split.
  - exact (proj1 (removeProduct_deletes_match (IdNum 99)
                    (Samples.stateOf [Samples.itemX 2; Samples.itemY])) eq_refl).
  - exact (proj2 (removeProduct_deletes_match (IdNum 1)
                    (Samples.stateOf [Samples.itemX 2; Samples.itemY]))
             [] (Samples.itemX 2) [Samples.itemY] eq_refl eq_refl eq_refl eq_refl).
Defined.

(** C3: [updateQuantity] changes nothing when no line item has the
    identifier. With a quantity [q <= 0] it gives the state that
    [removeProduct] gives, and no line item has the identifier
    afterwards. With any other quantity (one above 0, or NaN) the first
    line item with the identifier keeps its fields and gets the quantity
    [q], and the others stay. After the removal of the one line item
    that has the identifier, the cart is the line items before and after
    it, and the count badge and the total of the page are computed from
    those alone. *)
Theorem updateQuantity_sets_or_removes (productId : ident) (q : Num.number)
    (st : State) :
  (find productId (cart st) = None -> updateQuantity productId q st = st)
  /\ (forall existing,
        find productId (cart st) = Some existing -> q <= 0 ->
        updateQuantity productId q st = removeProduct productId st
        /\ find productId (cart (updateQuantity productId q st)) = None)
  /\ (forall before existing after,
        cart st = before ++ existing :: after ->
        id existing = productId ->
        find productId before = None ->
        (q <=? 0) = false ->
        cart (updateQuantity productId q st)
        = before
          ++ mkLineItem (id existing) (name existing) (description existing)
               (price existing) (badge existing) q
          :: after)
  /\ (forall before existing after,
        cart st = before ++ existing :: after ->
        id existing = productId ->
        find productId before = None -> find productId after = None ->
        q <= 0 ->
        let st' := updateQuantity productId q st in
        cart st' = before ++ after
        /\ cartCount (page st')
           = match cartCount (page st) with
             | Some _ =>
                 Some (mkCountBadge (Num.to_string (totalItems (before ++ after)))
                         (if 0 <? totalItems (before ++ after) then "flex" else "none"))
             | None => None
             end
        /\ cartTotal (page st')
           = match cartTotal (page st) with
             | Some _ => Some (Num.toFixed2 (totalPrice (before ++ after)))
             | None => None
             end).
Proof.
  split; [| split; [| split]].
  - intros E. unfold updateQuantity. now rewrite E.
  - intros existing E Hq. rewrite (updateQuantity_removes _ _ _ _ E Hq).
    split; [reflexivity |]. rewrite cart_removeProduct. apply find_filter.
  - intros before existing after Hc Hi Hb Hq.
    now rewrite (cart_updateQuantity_existing _ _ _ _ _ _ Hc Hi Hb Hq).
  - intros before existing after Hc Hi Hb Ha Hq st'. subst st'.
    rewrite (updateQuantity_removes productId q st existing)
      by (try exact Hq; rewrite Hc; now apply find_first).
    assert (cart (removeProduct productId st) = before ++ after) as Ec
      by (rewrite cart_removeProduct, Hc; now apply filter_one).
    split; [exact Ec |].
    unfold removeProduct in *. simpl in *. rewrite Ec. split; reflexivity.
Qed.

Lemma updateQuantity_sets_or_removes_witness :
  cart (updateQuantity (IdNum 1) 7 (Samples.stateOf [Samples.itemX 2; Samples.itemY]))
  = [mkLineItem (IdNum 1) "X" None 10 None 7; Samples.itemY]
  /\ cart (updateQuantity (IdNum 1) 0 (Samples.stateOf [Samples.itemX 2; Samples.itemY]))
     = [Samples.itemY]
  /\ cartCount (page (updateQuantity (IdNum 1) 0
                        (Samples.stateOf [Samples.itemX 2; Samples.itemY])))
     = Some (mkCountBadge "1" "flex")
  /\ cartTotal (page (updateQuantity (IdNum 1) 0
                        (Samples.stateOf [Samples.itemX 2; Samples.itemY])))
     = Some "150.00"
  /\ updateQuantity (IdNum 9) 3 (Samples.stateOf [Samples.itemX 2; Samples.itemY])
     = Samples.stateOf [Samples.itemX 2; Samples.itemY].
Proof.
  pose proof (updateQuantity_sets_or_removes (IdNum 1) 7
                (Samples.stateOf [Samples.itemX 2; Samples.itemY]))
    as (_ & _ & Hset & _).
  pose proof (updateQuantity_sets_or_removes (IdNum 1) 0
                (Samples.stateOf [Samples.itemX 2; Samples.itemY]))
    as (_ & _ & _ & Hremove).
  pose proof (updateQuantity_sets_or_removes (IdNum 9) 3
                (Samples.stateOf [Samples.itemX 2; Samples.itemY]))
    as (Hnone & _).
  destruct (Hremove [] (Samples.itemX 2) [Samples.itemY]
              eq_refl eq_refl eq_refl eq_refl eq_refl) as (Hcart & Hcount & Htotal).
  split; [exact (Hset [] (Samples.itemX 2) [Samples.itemY] eq_refl eq_refl eq_refl eq_refl) |].
  split; [exact Hcart |]. split; [exact Hcount |]. split; [exact Htotal |].
  exact (Hnone eq_refl).
Defined.

(** *** The invariant *)

Lemma find_None_not_In (productId : ident) (c : list LineItem) :
  find productId c = None -> ~ In productId (map id c).
Proof.
  unfold find. induction c as [|x c IH]; simpl; [tauto |].
  destruct (has_id productId x) eqn:Hx; [discriminate |].
  intros H [Hi | Hi]; [| exact (IH H Hi)].
  apply has_id_eq in Hi. congruence.
Qed.

Lemma NoDup_snoc {A : Type} (x : A) (l : list A) :
  List.NoDup l -> ~ In x l -> List.NoDup (l ++ [x]).
Proof.
  induction l as [|y l IH]; simpl; intros Hl Hx.
  - constructor; [intros [] | constructor].
  - apply List.NoDup_cons_iff in Hl as [Hy Hl].
    apply List.NoDup_cons_iff. split.
    + rewrite in_app_iff. simpl. intros [Hi | [-> | []]]; tauto.
    + apply IH; tauto.
Qed.

Lemma map_id_replace (q : Num.number) (before after : list LineItem)
    (existing : LineItem) :
  map id (before ++ set_quantity q existing :: after)
  = map id (before ++ existing :: after).
Proof. now rewrite !map_app. Qed.

Lemma Forall_replace (P : LineItem -> Prop) (before after : list LineItem)
    (existing changed : LineItem) :
  Forall P (before ++ existing :: after) -> P changed ->
  Forall P (before ++ changed :: after).
Proof.
  rewrite !List.Forall_app. intros [Hb Ha] Hc. split; [exact Hb |].
  inversion Ha; subst. now constructor.
Qed.

Lemma invariant_filter (keep : LineItem -> bool) (c : list LineItem) :
  invariant c -> invariant (List.filter keep c).
Proof.
  intros [Hn Hq]. split.
  - induction c as [|x c IH]; simpl in *; [constructor |].
    apply List.NoDup_cons_iff in Hn as [Hx Hn].
    inversion Hq; subst.
    destruct (keep x); simpl; [| now apply IH].
    apply List.NoDup_cons_iff. split; [| now apply IH].
    intros Hi. apply Hx. apply in_map_iff in Hi as (y & Hy & Hi).
    apply List.filter_In in Hi as [Hi _]. apply in_map_iff. eauto.
  - rewrite List.Forall_forall in *. intros x Hx.
    apply List.filter_In in Hx as [Hx _]. auto.
Qed.

Lemma invariant_replace (q : Num.number) (before after : list LineItem)
    (existing : LineItem) :
  invariant (before ++ existing :: after) -> 1 <= q ->
  invariant (before ++ set_quantity q existing :: after).
Proof.
  intros [Hn Hq] H1. split.
  - now rewrite map_id_replace.
  - eapply Forall_replace; [exact Hq | exact H1].
Qed.

Lemma quantity_of (before after : list LineItem) (existing : LineItem) :
  invariant (before ++ existing :: after) -> 1 <= quantity existing.
Proof.
  intros [_ Hq]. apply List.Forall_app in Hq as [_ Hq]. now inversion Hq.
Qed.

(** C6, as the code has it: from a cart with at most one line item per
    identifier and every quantity at least 1, [removeProduct] gives such
    a cart again for every identifier; [updateQuantity] does for every
    quantity that is 0 or less (the line item is removed) or 1 or more;
    and [addProduct] does for every product whose added quantity
    ([product.quantity || 1]) is 1 or more, which it is when the
    quantity of the product is absent, 0, NaN, or 1 or more. *)
Theorem operations_preserve_invariant (st : State) :
  invariant (cart st) ->
  (forall product,
     1 <= quantity_or_1 product -> invariant (cart (addProduct product st)))
  /\ (forall product,
        match product_quantity product with
        | Some q => q = 0 \/ q = Num.NaN \/ 1 <= q
        | None => True
        end ->
        1 <= quantity_or_1 product)
  /\ (forall productId, invariant (cart (removeProduct productId st)))
  /\ (forall productId q,
        q <= 0 \/ 1 <= q -> invariant (cart (updateQuantity productId q st))).
Proof.
  intros Hinv. split; [| split; [| split]].
  - intros product H1.
    pose proof (addProduct_cases product st) as H.
    destruct (find (product_id product) (cart st)) as [existing|] eqn:E.
    + destruct H as (before & after & Hc & _ & _ & ->). rewrite Hc in Hinv.
      apply invariant_replace; [exact Hinv |].
      apply le_1_add; [exact (quantity_of _ _ _ Hinv) | exact H1].
    + rewrite H. destruct Hinv as [Hn Hall]. split.
      * rewrite map_app. simpl. apply NoDup_snoc; [exact Hn |].
        now apply find_None_not_In.
      * apply List.Forall_app. split; [exact Hall |]. repeat constructor. exact H1.
  - intros product Hq. unfold quantity_or_1.
    destruct (product_quantity product) as [q|]; [| reflexivity].
    destruct Hq as [-> | [-> | Hq]]; try reflexivity.
    destruct (Num.truthy q); [exact Hq | reflexivity].
  - intros productId. rewrite cart_removeProduct. now apply invariant_filter.
  - intros productId q Hq. unfold updateQuantity.
    destruct (find productId (cart st)) as [existing|] eqn:E; [| exact Hinv].
    destruct (q <=? 0) eqn:Hle.
    + rewrite cart_removeProduct. simpl cart.
      rewrite filter_assign by reflexivity. now apply invariant_filter.
    + destruct Hq as [Hq | Hq]; [unfold Num.le in Hq; congruence |].
      destruct (find_split _ _ _ E) as (before & after & Hc & Hb & He).
      simpl cart. rewrite Hc, assign_split by assumption.
      apply invariant_replace; [now rewrite <- Hc | exact Hq].
Qed.

Lemma operations_preserve_invariant_witness :
  invariant (cart (Samples.stateOf [Samples.itemX 2; Samples.itemY]))
  /\ invariant (cart (addProduct (Samples.productX (Some 3))
                        (Samples.stateOf [Samples.itemX 2; Samples.itemY])))
  /\ invariant (cart (addProduct Samples.zapatillas
                        (Samples.stateOf [Samples.itemY])))
  /\ invariant (cart (removeProduct (IdNum 2)
                        (Samples.stateOf [Samples.itemX 2; Samples.itemY])))
  /\ invariant (cart (updateQuantity (IdNum 1) 0
                        (Samples.stateOf [Samples.itemX 2; Samples.itemY])))
  /\ invariant (cart (updateQuantity (IdNum 1) 7
                        (Samples.stateOf [Samples.itemX 2; Samples.itemY]))).
Proof.
  assert (invariant (cart (Samples.stateOf [Samples.itemX 2; Samples.itemY]))) as Hinv.
  { split.
    - repeat constructor; simpl; intros H; decompose [or] H; discriminate || contradiction.
    - repeat constructor. }
  assert (invariant (cart (Samples.stateOf [Samples.itemY]))) as Hinv'.
  { split.
    - repeat constructor; simpl; intros H; decompose [or] H; discriminate || contradiction.
    - repeat constructor. }
  pose proof (operations_preserve_invariant _ Hinv) as (Hadd & _ & Hremove & Hupdate).
  pose proof (operations_preserve_invariant _ Hinv') as (Hadd' & _ & _ & _).
  split; [exact Hinv |]. split; [apply Hadd; reflexivity |].
  split; [apply Hadd'; reflexivity |]. split; [apply Hremove |].
  split; apply Hupdate; [left | right]; reflexivity.
Defined.

(** The claim C6 as the specification words it fails: the methods check
    no quantity. A product with a negative quantity takes a line item
    below 1, and so does [updateQuantity] with a quantity between 0 and
    1. *)
Lemma unchecked_quantity_breaks_invariant :
  invariant (cart (Samples.stateOf [Samples.itemX 2]))
  /\ ~ invariant (cart (addProduct (Samples.productX (Some (-5)))
                          (Samples.stateOf [Samples.itemX 2])))
  /\ ~ invariant (cart (updateQuantity (IdNum 1) 0.5
                          (Samples.stateOf [Samples.itemX 2]))).
Proof.
  split; [| split].
  - split; repeat constructor; simpl; tauto.
  - intros [_ Hq]. rewrite cart_addProduct in Hq.
    apply List.Forall_inv in Hq. vm_compute in Hq. discriminate Hq.
  - intros [_ Hq]. apply List.Forall_inv in Hq. vm_compute in Hq. discriminate Hq.
Qed.

(** *** The persisted snapshot *)

Lemma item_of_json_of_item (item : LineItem) :
  Num.finite (price item) -> Num.finite (quantity item) ->
  item_of_json (json_of_item item) = Some item.
Proof.
  destruct item as [[n|s] nm [d|] [p| | |] [b|] [q| | |]]; simpl;
    intros Hp Hq; try contradiction; reflexivity.
Qed.

Lemma cart_of_json_of_cart (c : list LineItem) :
  finite_numbers c -> cart_of_json (json_of_cart c) = Some c.
Proof.
  unfold cart_of_json, json_of_cart.
  induction 1 as [|x c [Hp Hq] Hc IH]; [reflexivity |].
  change (items_of_json (map json_of_item (x :: c)))
    with (item ← item_of_json (json_of_item x);
          items ← items_of_json (map json_of_item c);
          Some (item :: items)).
  now rewrite item_of_json_of_item, IH.
Qed.

(** What [saveCart] followed by the constructor comes to. *)
Lemma constructor_saveCart (st : State) :
  constructor (localStorage (saveCart st))
  = Normal (if truthy (json_of_cart (cart st)) then json_of_cart (cart st) else JArr []).
Proof.
  unfold constructor, saveCart. simpl localStorage.
  now rewrite lookup_insert_eq, parse_stringify.
Qed.




(** C1, on the code: with no value under the key the constructor gives
    the empty cart, but a stored text that [JSON.parse] rejects makes the
    constructor throw: it hands on whatever [JSON.parse] throws. *)
Theorem constructor_missing_or_corrupt (storage : gmap string string) :
  constructor (delete storageKey storage) = Normal (JArr [])
  /\ constructor (<[storageKey := "{"]> storage) = Throw SyntaxError
  /\ forall s,
       constructor (<[storageKey := s]> storage)
       = match JSON.parse s with
         | Normal v => Normal (if truthy v then v else JArr [])
         | Throw e => Throw e
         end.
Proof.
  unfold constructor. rewrite lookup_delete_eq, lookup_insert_eq.
  repeat split. intros s. now rewrite lookup_insert_eq.
Qed.

(** *** The examples of the specification, evaluated *)

Example add_two_then_three :
  let st := addProduct (Samples.productX (Some 3))
              (addProduct (Samples.productX (Some 2)) (Samples.stateOf [])) in
  cart st = [Samples.itemX 5]
  /\ cartCount (page st) = Some (mkCountBadge "5" "flex")
  /\ cartTotal (page st) = Some "50.00"
  /\ localStorage st !! storageKey
     = Some (lit "[{`id`:1,`name`:`X`,`price`:10,`quantity`:5}]").
Proof. vm_compute. repeat split. Qed.

(** Two pairs of the first product of the catalog. *)
Example add_zapatillas_twice :
  let st := addProduct Samples.zapatillas
              (addProduct Samples.zapatillas (Samples.stateOf [])) in
  cart st = [Samples.itemZapatillas 2]
  /\ cartCount (page st) = Some (mkCountBadge "2" "flex")
  /\ cartTotal (page st) = Some "179.98"
  /\ constructor (localStorage st) = Normal (json_of_cart [Samples.itemZapatillas 2]).
Proof. vm_compute. repeat split. Qed.

Example remove_99 :
  cart (removeProduct (IdNum 99) (Samples.stateOf [Samples.itemX 2]))
  = [Samples.itemX 2].
Proof. reflexivity. Qed.

Example constructor_reads_snapshot :
  constructor
    (<[storageKey := lit "[{`id`:1,`name`:`X`,`price`:89.99,`quantity`:5e0}]"]> ∅)
  = Normal (json_of_cart [mkLineItem (IdNum 1) "X" None 89.99 None 5]).
Proof. vm_compute. reflexivity. Qed.

(** On a page without the cart elements nothing is shown. *)
Example updateCartUI_bare_page :
  page (updateCartUI (mkState [Samples.itemX 2] ∅ Samples.barePage))
  = Samples.barePage.
Proof. reflexivity. Qed.

End CartFacts.

(** ** The component loader *)

Section LoaderFacts.

Import ComponentLoader.

Variable fetch : string -> FetchResult.
Variable parseHead : string -> list Element.
Variable initHeader : Document -> Outcome.
Variable initFooter : Document -> Outcome.
Variable memberText : string -> string.

Lemma getElementById_set_innerHTML (i html : string) (nodes : list Node) :
  getElementById i (set_innerHTML i html nodes)
  = match getElementById i nodes with
    | Some _ => Some html
    | None => None
    end.
Proof.
  induction nodes as [|[j inner|h] nodes IH]; simpl; [reflexivity | | exact IH].
  destruct (String.eqb j i) eqn:E; simpl; rewrite E; [reflexivity | exact IH].
Qed.

(** A failed fetch takes [loadHead] to [loadDefaultHead]. *)
Lemma loadHead_failure (doc : Document) :
  fetched (fetch (componentsPath +:+ "head.html")) = None ->
  loadHead fetch parseHead doc
  = loadDefaultHead (print Error "❌ Error cargando head:" doc).
Proof.
  unfold loadHead, fetched.
  destruct (fetch _) as [|[] status [text|]]; intros H; (discriminate || reflexivity).
Qed.

(** A failed fetch takes [loadComponent] to [showComponentFallback]. *)
Lemma loadComponent_failure (componentName targetId : string) (doc : Document) :
  fetched (fetch (componentsPath +:+ componentName +:+ ".html")) = None ->
  loadComponent fetch initHeader initFooter memberText componentName targetId doc
  = showComponentFallback memberText componentName targetId
      (print Error ("❌ Error cargando " +:+ componentName +:+ ":") doc).
Proof.
  unfold loadComponent, fetched.
  destruct (fetch _) as [|[] status [text|]]; intros H; (discriminate || reflexivity).
Qed.

(** The literal has the two properties [header] and [footer]. *)
Lemma fallbacks_own (componentName markup : string) :
  get_property fallbacks componentName = Own markup ->
  componentName = "header" \/ componentName = "footer".
Proof.
  unfold get_property.
  destruct (getAttribute componentName fallbacks) as [value|] eqn:E;
    [| destruct (existsb _ _); discriminate].
  intros _. unfold fallbacks, getAttribute in E.
  destruct (String.eqb_spec "header" componentName) as [<- |]; [now left |].
  destruct (String.eqb_spec "footer" componentName) as [<- |]; [now right |].
  discriminate E.
Qed.

(** C8: when the fetch of the head fragment fails (rejected, status not a
    success, body not readable), [loadHead] appends the default elements
    to the head: afterwards the head has a title element and a viewport
    meta element, and it is not empty. *)
Theorem loadHead_failure_installs_default (doc : Document) :
  fetched (fetch (componentsPath +:+ "head.html")) = None ->
  let h := head (loadHead fetch parseHead doc) in
  h = head doc ++ defaultHead
  /\ (exists el, In el h /\ tagName el = "title")
  /\ (exists el, In el h /\ tagName el = "meta"
                 /\ getAttribute "name" (attributes el) = Some "viewport")
  /\ h <> [].
Proof.
  intros Hfail h. subst h. rewrite loadHead_failure by exact Hfail.
  simpl head. repeat split.
  - eexists. split; [apply in_or_app; right; simpl; right; right; left; reflexivity |].
    reflexivity.
  - eexists. split; [apply in_or_app; right; simpl; right; left; reflexivity |].
    split; reflexivity.
  - intros E. apply app_eq_nil in E as [_ E]. discriminate E.
Qed.

(** C7, as the code has it: when the fetch fails (rejected, status not a
    success, body not readable) an error is logged; the contents of the
    mount element are replaced by the fallback of the component when the
    mount exists and the table of fallbacks has the name, which it has
    for [header] and [footer]; the body is left as it is when the mount
    is missing, or when the name is neither in the table nor inherited
    by it. A failed fetch never removes the mount element, nor creates
    it. When the fetch succeeds and the mount element is missing, the
    body is left as it is and a warning is logged. *)
Theorem loadComponent_falls_back (componentName targetId : string) (doc : Document) :
  let url := componentsPath +:+ componentName +:+ ".html" in
  let doc' :=
    loadComponent fetch initHeader initFooter memberText componentName targetId doc in
  (fetched (fetch url) = None ->
   console doc' = console doc ++ [(Error, "❌ Error cargando " +:+ componentName +:+ ":")]
   /\ (forall inner markup,
         getElementById targetId (body doc) = Some inner ->
         get_property fallbacks componentName = Own markup ->
         (componentName = "header" \/ componentName = "footer")
         /\ body doc' = set_innerHTML targetId markup (body doc)
         /\ getElementById targetId (body doc') = Some markup)
   /\ (getElementById targetId (body doc) = None
       \/ get_property fallbacks componentName = Undefined ->
       body doc' = body doc)
   /\ (forall inner, getElementById targetId (body doc) = Some inner ->
       exists inner', getElementById targetId (body doc') = Some inner')
   /\ (getElementById targetId (body doc) = None ->
       getElementById targetId (body doc') = None))
  /\ (forall html,
        fetched (fetch url) = Some html ->
        getElementById targetId (body doc) = None ->
        body doc' = body doc
        /\ console doc'
           = console doc ++ [(Warn, "⚠️ Elemento #" +:+ targetId +:+ " no encontrado")]).
Proof.
  intros url doc'. subst url doc'. split.
  - intros Hfail. rewrite loadComponent_failure by exact Hfail.
    unfold showComponentFallback. simpl body.
    split; [| split; [| split; [| split]]].
    + destruct (getElementById targetId (body doc));
        [destruct (get_property fallbacks componentName) |]; reflexivity.
    + intros inner markup Hmount Hown. rewrite Hmount, Hown. simpl.
      rewrite getElementById_set_innerHTML, Hmount.
      split; [exact (fallbacks_own _ _ Hown) | split; reflexivity].
    + intros [Hmount | Hnone]; [now rewrite Hmount |].
      rewrite Hnone. now destruct (getElementById targetId (body doc)).
    + intros inner Hmount. rewrite Hmount.
      destruct (get_property fallbacks componentName); simpl;
        rewrite ?getElementById_set_innerHTML, ?Hmount; eauto.
    + intros Hmount. now rewrite Hmount.
  - intros html Hok Hmount. unfold loadComponent, fetched in *.
    destruct (fetch _) as [|[] status [text|]]; try discriminate.
    rewrite Hmount. split; reflexivity.
Qed.

Lemma inherited_property (componentName : string) :
  In componentName inheritedKeys ->
  get_property fallbacks componentName = Inherited.
Proof.
  intros H. simpl in H. decompose [or] H; subst; (reflexivity || contradiction).
Qed.

(** A component name that the table of fallbacks inherits from
    [Object.prototype] passes the test of [showComponentFallback] as a
    name of the table does: after a failed fetch the contents of the
    mount element, when it exists, are replaced by the text of the
    inherited member. *)
Theorem loadComponent_inherited_fallback (componentName targetId inner : string)
    (doc : Document) :
  In componentName inheritedKeys ->
  fetched (fetch (componentsPath +:+ componentName +:+ ".html")) = None ->
  getElementById targetId (body doc) = Some inner ->
  let doc' :=
    loadComponent fetch initHeader initFooter memberText componentName targetId doc in
  body doc' = set_innerHTML targetId (memberText componentName) (body doc)
  /\ getElementById targetId (body doc') = Some (memberText componentName).
Proof.
  intros Hin Hfail Hmount doc'. subst doc'.
  rewrite loadComponent_failure by exact Hfail.
  unfold showComponentFallback. simpl body.
  rewrite Hmount, (inherited_property _ Hin). simpl body.
  split; [reflexivity |]. now rewrite getElementById_set_innerHTML, Hmount.
Qed.

End LoaderFacts.

(** A successful load replaces the mount element itself and sets the
    component up; a rejected fetch leaves the fallback in the mount. *)
Example loadComponent_success :
  ComponentLoader.loadComponent Samples.fetchOk Samples.initNothing Samples.initNothing
    Samples.nativeCode "header" "header-container" Samples.indexDocument
  = ComponentLoader.mkDocument []
      [ComponentLoader.Markup "<header>SPORTPRO</header>";
       ComponentLoader.Mount "main-content" "<h2>Productos</h2>";
       ComponentLoader.Mount "footer-container" ""]
      [(ComponentLoader.Log, "✅ Componente header cargado correctamente")].
Proof. reflexivity. Qed.

Example loadComponent_rejected :
  exists markup,
    ComponentLoader.get_property ComponentLoader.fallbacks "footer"
    = ComponentLoader.Own markup
    /\ ComponentLoader.getElementById "footer-container"
         (ComponentLoader.body
            (ComponentLoader.loadComponent Samples.fetchRejected Samples.initNothing
               Samples.initNothing Samples.nativeCode "footer" "footer-container"
               Samples.indexDocument))
       = Some markup.
Proof. eexists. split; reflexivity. Qed.

(** When the set-up of the header throws, the [catch] block runs after
    the mount element has been replaced: the error is logged and there is
    no mount left for the fallback. *)
Example loadComponent_init_throws :
  ComponentLoader.loadComponent Samples.fetchOk Samples.initThrows Samples.initNothing
    Samples.nativeCode "header" "header-container" Samples.indexDocument
  = ComponentLoader.mkDocument []
      [ComponentLoader.Markup "<header>SPORTPRO</header>";
       ComponentLoader.Mount "main-content" "<h2>Productos</h2>";
       ComponentLoader.Mount "footer-container" ""]
      [(ComponentLoader.Log, "✅ Componente header cargado correctamente");
       (ComponentLoader.Error, "❌ Error cargando header:")].
Proof. reflexivity. Qed.

Lemma loadComponent_inherited_fallback_witness :
  In "toString" ComponentLoader.inheritedKeys
  /\ ComponentLoader.fetched (Samples.fetch404 "components/toString.html") = None
  /\ ComponentLoader.getElementById "header-container"
       (ComponentLoader.body
          (ComponentLoader.loadComponent Samples.fetch404 Samples.initNothing
             Samples.initNothing Samples.nativeCode "toString" "header-container"
             Samples.indexDocument))
     = Some "function toString() { [native code] }".
Proof.
  assert (In "toString" ComponentLoader.inheritedKeys) as Hin
    by (simpl; repeat (try (left; reflexivity); right)).
  split; [exact Hin |]. split; [reflexivity |].
  exact (proj2 (loadComponent_inherited_fallback Samples.fetch404 Samples.initNothing
                  Samples.initNothing Samples.nativeCode "toString" "header-container"
                  "" Samples.indexDocument Hin eq_refl eq_refl)).
Defined.

Lemma loadHead_failure_installs_default_witness :
  ComponentLoader.fetched (Samples.fetch404 "components/head.html") = None
  /\ exists el,
       In el (ComponentLoader.head
                (ComponentLoader.loadHead Samples.fetch404 Samples.parseNothing
                   Samples.indexDocument))
       /\ tagName el = "title".
Proof.
  split; [reflexivity |].
  exact (proj1 (proj2 (loadHead_failure_installs_default Samples.fetch404
                         Samples.parseNothing Samples.indexDocument eq_refl))).
Defined.

Lemma loadComponent_falls_back_witness :
  ComponentLoader.fetched (Samples.fetch404 "components/header.html") = None
  /\ exists markup,
       ComponentLoader.get_property ComponentLoader.fallbacks "header"
       = ComponentLoader.Own markup
       /\ ComponentLoader.getElementById "header-container"
            (ComponentLoader.body
               (ComponentLoader.loadComponent Samples.fetch404 Samples.initNothing
                  Samples.initNothing Samples.nativeCode "header" "header-container"
                  Samples.indexDocument))
          = Some markup.
Proof.
  split; [reflexivity |]. eexists. split; [reflexivity |].
  exact (proj2 (proj2 (proj1 (proj2 (proj1
           (loadComponent_falls_back Samples.fetch404 Samples.initNothing
              Samples.initNothing Samples.nativeCode "header" "header-container"
              Samples.indexDocument) eq_refl)) "" _ eq_refl eq_refl))).
Defined.

(** The claim C7 as the specification words it fails for a missing mount
    element: there are then no contents to replace, and with a successful
    fetch the fallback is not even tried. *)
Lemma loadComponent_missing_mount_shows_no_fallback :
  ~ (forall (fetch : string -> ComponentLoader.FetchResult)
            (componentName targetId : string) (doc : ComponentLoader.Document)
            (markup : string),
       ComponentLoader.fetched
         (fetch (ComponentLoader.componentsPath +:+ componentName +:+ ".html")) = None
       \/ ComponentLoader.getElementById targetId (ComponentLoader.body doc) = None ->
       ComponentLoader.get_property ComponentLoader.fallbacks componentName
       = ComponentLoader.Own markup ->
       ComponentLoader.getElementById targetId
         (ComponentLoader.body
            (ComponentLoader.loadComponent fetch Samples.initNothing Samples.initNothing
               Samples.nativeCode componentName targetId doc))
       = Some markup).
Proof.
  intros H.
  specialize (H Samples.fetchOk "header" "header-container" Samples.bareDocument _
                (or_intror eq_refl) eq_refl).
  discriminate H.
Qed.

(** ** The path fixer *)

Section PathFixerFacts.

Import PathFixer.

Lemma prefix_app (p s : string) :
  String.prefix p s = true -> exists t, s = p +:+ t.
Proof.
  revert s. induction p as [|a p IH]; intros s.
  - intros _. now exists s.
  - destruct s as [|b s]; [discriminate |].
    change (String.prefix (String a p) (String b s))
      with (if ascii_dec a b then String.prefix p s else false).
    destruct (ascii_dec a b) as [<- |]; [| discriminate].
    intros H. destruct (IH s H) as [t ->]. now exists t.
Qed.

Lemma string_length_app (s t : string) :
  String.length (s +:+ t) = (String.length s + String.length t)%nat.
Proof. induction s as [|a s IH]; simpl; [reflexivity | now rewrite IH]. Qed.

Lemma getAttribute_setAttribute (n v : string) (attrs : list (string * string)) :
  getAttribute n (setAttribute n v attrs) = Some v.
Proof.
  induction attrs as [|[k w] attrs IH]; simpl.
  - now rewrite String.eqb_refl.
  - destruct (String.eqb k n) eqn:E; simpl; rewrite E; [reflexivity | exact IH].
Qed.

(** An href under ["/pages/"] does not come out as it went in. *)
Lemma fixHref_pages (isInPages : bool) (href : string) :
  startsWith href "/pages/" = true -> fixHref isInPages href <> href.
Proof.
  intros H. apply prefix_app in H as [t ->].
  destruct isInPages, t as [|c t]; intros E; vm_compute in E; try discriminate E.
  apply (f_equal String.length) in E. simpl in E. lia.
Qed.

Lemma fixHref_skipped (isInPages : bool) (href : string) :
  skipped href = true -> fixHref isInPages href = href.
Proof. unfold fixHref, skipped. now intros ->. Qed.

Lemma root_relative_not_skipped (href : string) :
  startsWith href "/" = true -> skipped href = false.
Proof. intros H. apply prefix_app in H as [t ->]. now destruct t. Qed.

Lemma fixHref_other_root_relative (isInPages : bool) (href : string) :
  startsWith href "/" = true -> href <> "/" -> startsWith href "/pages/" = false ->
  fixHref isInPages href = href.
Proof.
  intros Hroot Hne Hpages. unfold fixHref. fold (skipped href).
  rewrite (root_relative_not_skipped href Hroot), Hroot, Hpages.
  now rewrite (proj2 (String.eqb_neq href "/") Hne).
Qed.

Lemma fixLink_anchor (isInPages : bool) (el : Element) (href : string) :
  tagName el = "a" -> getAttribute "href" (attributes el) = Some href ->
  fixLink isInPages el
  = if String.eqb (fixHref isInPages href) href then el
    else with_attribute "href" (fixHref isInPages href) el.
Proof.
  intros Htag Hhref. unfold fixLink. rewrite Htag, Hhref. simpl.
  destruct (String.eqb_spec href "") as [-> |]; reflexivity.
Qed.

Lemma fixLink_other (isInPages : bool) (el : Element) :
  tagName el <> "a" -> fixLink isInPages el = el.
Proof.
  intros H. unfold fixLink. now rewrite (proj2 (String.eqb_neq _ _) H).
Qed.

Lemma isResource_tag (el : Element) :
  isResource el = true -> tagName el = "link" \/ tagName el = "script".
Proof.
  unfold isResource. intros H.
  apply orb_true_iff in H as [H | H]; apply andb_true_iff in H as [H _];
    apply String.eqb_eq in H; auto.
Qed.

Lemma fixResource_anchor (isInPages : bool) (el : Element) :
  tagName el = "a" -> fixResource isInPages el = el.
Proof.
  intros H. unfold fixResource, isResource. now rewrite H.
Qed.

Lemma fix_rewritten (isInPages : bool) (el : Element) :
  rewritten isInPages el (fixResource isInPages (fixLink isInPages el)).
Proof.
  unfold rewritten. split; [| split].
  - unfold fixResource, fixLink.
    repeat (match goal with |- context [if ?c then _ else _] => destruct c end
            || match goal with |- context [match ?c with Some _ => _ | None => _ end] =>
                 destruct c end); reflexivity.
  - intros Htag href Hhref.
    assert (tagName (fixLink isInPages el) = "a") as Htag'.
    { rewrite (fixLink_anchor _ _ _ Htag Hhref).
      destruct (String.eqb _ href); exact Htag. }
    rewrite (fixResource_anchor _ _ Htag'), (fixLink_anchor _ _ _ Htag Hhref).
    repeat split.
    + intros Hs. now rewrite (fixHref_skipped _ _ Hs), String.eqb_refl.
    + intros ->. now destruct isInPages.
    + intros Hp. pose proof (fixHref_pages isInPages href Hp) as Hne.
      rewrite (proj2 (String.eqb_neq _ _) Hne).
      exists (fixHref isInPages href). split; [| exact Hne].
      apply getAttribute_setAttribute.
    + intros Hroot Hne Hp.
      now rewrite (fixHref_other_root_relative _ _ Hroot Hne Hp), String.eqb_refl.
  - intros Hres url Hurl.
    assert (fixLink isInPages el = el) as ->.
    { apply fixLink_other. destruct (isResource_tag el Hres) as [-> | ->]; discriminate. }
    unfold fixResource. rewrite Hres, Hurl. split; intros Hroot; rewrite Hroot.
    + destruct (String.eqb_spec url "") as [-> |]; [discriminate | reflexivity].
    + now rewrite andb_false_r.
Qed.

(** C9, as the code has it: under a protocol other than [file:] the path
    fixer changes nothing. Under [file:] it keeps every anchor whose href
    starts with [http], [#], [mailto:] or [tel:]; it turns the href ["/"]
    into the index page and changes an href that starts with ["/pages/"],
    by one rule for a document inside [/pages/] and one for a document
    outside; it leaves every other href that starts with ["/"] as it is;
    and it puts [".."] or ["."] in front of every stylesheet or script
    reference that starts with ["/"], leaving the other references. *)
Theorem init_rewrites_paths (loc : Location) (elements : list Element) :
  (protocol loc <> "file:" -> init loc elements = elements)
  /\ (protocol loc = "file:" ->
      Forall2 (rewritten (includes (pathname loc) "/pages/"))
        elements (init loc elements)).
Proof.
  unfold init. split.
  - intros H. now rewrite (proj2 (String.eqb_neq _ _) H).
  - intros ->. simpl. unfold fixFileProtocolPaths.
    induction elements as [|el elements IH]; simpl; constructor;
      [apply fix_rewritten | exact IH].
Qed.

End PathFixerFacts.

(** What the two rules make of an href under ["/pages/"]. *)
Example fixHref_under_pages :
  PathFixer.fixHref true "/pages/productos.html" = "/productos.html"
  /\ PathFixer.fixHref false "/pages/productos.html" = "pagess/productos.html".
Proof. split; reflexivity. Qed.

Example init_on_a_page :
  PathFixer.init Samples.pagesLocation
    [Samples.anchor "https://example.com/"; Samples.anchor "#top";
     Samples.anchor "mailto:info@sportpro.com"; Samples.anchor "./index.html";
     Samples.script "/assets/js/main.js"; Samples.script "assets/js/main.js"]
  = [Samples.anchor "https://example.com/"; Samples.anchor "#top";
     Samples.anchor "mailto:info@sportpro.com"; Samples.anchor "../index.html";
     Samples.script "../assets/js/main.js"; Samples.script "assets/js/main.js"].
Proof. reflexivity. Qed.

Lemma init_rewrites_paths_witness :
  PathFixer.protocol Samples.httpLocation <> "file:"
  /\ PathFixer.init Samples.httpLocation [Samples.anchor "/"] = [Samples.anchor "/"]
  /\ PathFixer.protocol Samples.pagesLocation = "file:"
  /\ Forall2 (PathFixer.rewritten true)
       [Samples.anchor "/"; Samples.stylesheet "/assets/css/main.css"]
       [Samples.anchor "../index.html"; Samples.stylesheet "../assets/css/main.css"].
Proof.
  split; [discriminate |].
  split; [exact (proj1 (init_rewrites_paths Samples.httpLocation [Samples.anchor "/"])
                   ltac:(discriminate)) |].
  split; [reflexivity |].
  exact (proj2 (init_rewrites_paths Samples.pagesLocation
                  [Samples.anchor "/"; Samples.stylesheet "/assets/css/main.css"])
           eq_refl).
Defined.

(** The claim C9 as the specification words it fails for the anchors: an
    href that starts with ["/"] and is neither ["/"] nor under ["/pages/"]
    is not rewritten. *)
Lemma init_keeps_other_root_relative_href :
  PathFixer.protocol Samples.rootLocation = "file:"
  /\ startsWith "/contacto.html" "/" = true
  /\ PathFixer.init Samples.rootLocation [Samples.anchor "/contacto.html"]
     = [Samples.anchor "/contacto.html"].
Proof. repeat split. Qed.

(** ** More on the cart manager *)

Section CartMore.

Import JSON CartManager.

Local Open Scope num_scope.

Lemma reloads_saved (st : State) :
  finite_numbers (cart st) -> Reload.reloads (updateCartUI (saveCart st)).
Proof.
  intros Hfinite. exists (json_of_cart (cart st)).
  split; [| now apply cart_of_json_of_cart].
  change (localStorage (updateCartUI (saveCart st))) with (localStorage (saveCart st)).
  apply constructor_saveCart.
Qed.

Lemma reloads_addProduct (product : Product) (st : State) :
  finite_numbers (cart (addProduct product st)) ->
  Reload.reloads (addProduct product st).
Proof.
  intros Hfinite. unfold addProduct in *.
  destruct (reloads_saved
              (with_cart
                 match find (product_id product) (cart st) with
                 | Some _ =>
                     assign (product_id product)
                       (fun item => set_quantity (quantity item + quantity_or_1 product) item)
                       (cart st)
                 | None => cart st ++ [spread product (quantity_or_1 product)]
                 end st) Hfinite) as (v & Hv & Hc).
  exists v. split; [exact Hv | exact Hc].
Qed.



Lemma saved_other_keys (k : string) (st : State) :
  k <> storageKey ->
  localStorage (updateCartUI (saveCart st)) !! k = localStorage st !! k.
Proof. intros Hk. simpl. now rewrite lookup_insert_ne. Qed.

(** The cart methods write one key of the storage: what any other key
    holds stays as it is. *)
Theorem operations_keep_other_keys (k : string) (st : State) :
  k <> storageKey ->
  (forall product, localStorage (addProduct product st) !! k = localStorage st !! k)
  /\ (forall productId,
        localStorage (removeProduct productId st) !! k = localStorage st !! k)
  /\ (forall productId q,
        localStorage (updateQuantity productId q st) !! k = localStorage st !! k).
Proof.
  intros Hk. split; [| split].
  - intros product. unfold addProduct. simpl. now rewrite lookup_insert_ne.
  - intros productId. unfold removeProduct. now rewrite saved_other_keys.
  - intros productId q. unfold updateQuantity.
    destruct (find productId (cart st)); [| reflexivity].
    destruct (q <=? 0); [unfold removeProduct |]; now rewrite saved_other_keys.
Qed.

Lemma operations_keep_other_keys_witness :
  "theme" <> storageKey
  /\ localStorage
       (addProduct (Samples.productX None)
          (mkState [] (<["theme" := "dark"]> ∅) Samples.shopPage)) !! "theme"
     = Some "dark".
Proof.
  split; [discriminate |].
  rewrite (proj1 (operations_keep_other_keys "theme"
                    (mkState [] (<["theme" := "dark"]> ∅) Samples.shopPage)
                    ltac:(discriminate))).
  reflexivity.
Defined.





Lemma filter_filter_id (productId : ident) (c : list LineItem) :
  List.filter (fun item => negb (strict_eq (id item) productId))
    (List.filter (fun item => negb (strict_eq (id item) productId)) c)
  = List.filter (fun item => negb (strict_eq (id item) productId)) c.
Proof.
  induction c as [|x c IH]; simpl; [reflexivity |].
  destruct (strict_eq (id x) productId) eqn:Hx; simpl; [exact IH |].
  now rewrite Hx, IH.
Qed.

Lemma updateCartUI_saveCart_twice (c : list LineItem) (st : State) :
  updateCartUI (saveCart (with_cart c (updateCartUI (saveCart (with_cart c st)))))
  = updateCartUI (saveCart (with_cart c st)).
Proof.
  unfold updateCartUI, saveCart, with_cart. simpl.
  rewrite insert_insert_eq.
  destruct (page st) as [[badge|] [total|] [items|] feedback]; reflexivity.
Qed.

(** Removing an identifier twice is removing it once, for the cart, the
    storage and the page alike; and removing the identifier of a product
    that has just been added leaves the line items that removing it
    before the addition would have left. *)
Theorem removeProduct_again_and_after_add (productId : ident) (product : Product)
    (st : State) :
  removeProduct productId (removeProduct productId st) = removeProduct productId st
  /\ cart (removeProduct (product_id product) (addProduct product st))
     = cart (removeProduct (product_id product) st).
Proof.
  split.
  - unfold removeProduct at 1. rewrite cart_removeProduct, filter_filter_id.
    apply updateCartUI_saveCart_twice.
  - rewrite !cart_removeProduct, cart_addProduct.
    destruct (find (product_id product) (cart st)).
    + now rewrite filter_assign.
    + rewrite List.filter_app. simpl.
      rewrite (proj2 (strict_eq_eq _ _) eq_refl). simpl. apply app_nil_r.
Qed.

End CartMore.

(** ** The buttons of the cart rows *)

Section CartButtonsFacts.

Import JSON CartManager CartButtons.

Local Open Scope num_scope.

(** The remove button of a row hands [removeProduct] the [data-id] of the
    row, a string, which [!==] tells apart from every number: a line item
    whose identifier is a number is never removed by it, and a cart of
    such line items stays as it is. *)
Theorem removeClick_keeps_numbered_items (productId : string) (st : State) :
  (forall item n,
     In item (cart st) -> id item = IdNum n ->
     In item (cart (removeClick productId st)))
  /\ (Forall (fun item => exists n, id item = IdNum n) (cart st) ->
      cart (removeClick productId st) = cart st).
Proof.
  unfold removeClick. rewrite cart_removeProduct. split.
  - intros item n Hin Hid. apply List.filter_In. split; [exact Hin |].
    now rewrite Hid.
  - intros Hall. induction Hall as [|x c [n Hx] Hc IH]; simpl; [reflexivity |].
    rewrite Hx. simpl. now rewrite IH.
Qed.

Lemma removeClick_keeps_numbered_items_witness :
  row_data_id (mkRow "1" "X" "10.00€" "2") = "1"
  /\ renderCartItems [Samples.itemX 2] = CartRows [mkRow "1" "X" "10.00€" "2"]
  /\ cart (removeClick "1" (Samples.stateOf [Samples.itemX 2])) = [Samples.itemX 2].
Proof.
  split; [reflexivity |]. split; [reflexivity |].
  apply (proj2 (removeClick_keeps_numbered_items "1" (Samples.stateOf [Samples.itemX 2]))).
  repeat constructor. now exists 1%Z.
Defined.

Section Listeners.

Variable toNumber : string -> option Z.

(** All that is asked of [Number]: it reads back what [String] writes
    for an integer. *)
Hypothesis toNumber_string_of_Z : forall n, toNumber (string_of_Z n) = Some n.

Lemma find_loose_numbered (n : Z) (c : list LineItem) :
  Forall (fun item => exists m, id item = IdNum m) c ->
  List.find (fun i => loose_eq toNumber (id i) (string_of_Z n)) c = find (IdNum n) c.
Proof.
  unfold find. induction 1 as [|x c [m Hx] Hc IH]; simpl; [reflexivity |].
  unfold has_id. rewrite Hx. simpl. rewrite toNumber_string_of_Z, IH. reflexivity.
Qed.

(** In a cart whose identifiers are numbers, the [+] and [-] buttons of
    the row of a line item call [updateQuantity] for that line item with
    its quantity plus or minus 1; so [-] on a quantity of 1 (or less)
    removes the line item, as [removeProduct] does. *)
Theorem quantityClick_updates_row (isPlus : bool) (n : Z) (st : State)
    (item : LineItem) :
  Forall (fun i => exists m, id i = IdNum m) (cart st) ->
  find (IdNum n) (cart st) = Some item ->
  quantityClick toNumber isPlus (string_of_Z n) st
  = updateQuantity (IdNum n)
      (if isPlus then quantity item + 1 else quantity item - 1) st
  /\ (quantity item <= 1 ->
      quantityClick toNumber false (string_of_Z n) st = removeProduct (IdNum n) st).
Proof.
  intros Hall E.
  assert (forall b,
    quantityClick toNumber b (string_of_Z n) st
    = updateQuantity (IdNum n) (if b then quantity item + 1 else quantity item - 1) st)
    as Hclick.
  { intros b. unfold quantityClick. rewrite (find_loose_numbered n _ Hall), E.
    destruct (find_split _ _ _ E) as (_ & _ & _ & _ & He).
    apply has_id_eq in He. now rewrite He. }
  split; [apply Hclick |].
  intros Hq. rewrite Hclick. apply (updateQuantity_removes _ _ _ item E).
  now apply le_sub_1.
Qed.

End Listeners.

Lemma decimal_string_of_Z (n : Z) : Samples.decimal (string_of_Z n) = Some n.
Proof.
  unfold Samples.decimal, string_of_Z, Num.to_string.
  rewrite list_ascii_of_string_of_list_ascii.
  pose proof (parse_number_print (Num.of_Z n) [] I) as H. rewrite app_nil_r in H.
  now rewrite H.
Qed.

Lemma quantityClick_updates_row_witness :
  (forall n, Samples.decimal (string_of_Z n) = Some n)
  /\ cart (quantityClick Samples.decimal true "1"
             (Samples.stateOf [Samples.itemX 1; Samples.itemY]))
     = [Samples.itemX 2; Samples.itemY]
  /\ cart (quantityClick Samples.decimal false "1"
             (Samples.stateOf [Samples.itemX 1; Samples.itemY]))
     = [Samples.itemY].
Proof.
  assert (Forall (fun i => exists m, id i = IdNum m)
            (cart (Samples.stateOf [Samples.itemX 1; Samples.itemY]))) as Hall.
  { repeat constructor; [now exists 1%Z | now exists 2%Z]. }
  split; [exact decimal_string_of_Z |]. split.
  - pose proof (proj1 (quantityClick_updates_row Samples.decimal decimal_string_of_Z
                         true 1 (Samples.stateOf [Samples.itemX 1; Samples.itemY])
                         (Samples.itemX 1) Hall eq_refl)) as H.
    change (string_of_Z 1) with "1" in H. rewrite H. reflexivity.
  - pose proof (proj2 (quantityClick_updates_row Samples.decimal decimal_string_of_Z
                         false 1 (Samples.stateOf [Samples.itemX 1; Samples.itemY])
                         (Samples.itemX 1) Hall eq_refl) eq_refl) as H.
    change (string_of_Z 1) with "1" in H. rewrite H. reflexivity.
Defined.

End CartButtonsFacts.

(** ** The checkout *)

Section CheckoutFacts.

Import JSON CartManager Checkout.

(** When the payment timer of the checkout runs, the cart is emptied
    whatever it holds by then, the storage holds the empty list under the
    key, so that a reload starts with an empty cart, and the cart
    elements that the page has show no item and a total of 0.00. *)
Theorem checkoutTimer_empties_cart (st : State) (modal : option CartModal.Modal) :
  let st' := snd (fst (checkoutTimer st modal)) in
  cart st' = []
  /\ localStorage st' !! storageKey = Some "[]"
  /\ constructor (localStorage st') = Normal (JArr [])
  /\ cartCount (page st')
     = match cartCount (page st) with
       | Some _ => Some (mkCountBadge "0" "none")
       | None => None
       end
  /\ cartTotal (page st')
     = match cartTotal (page st) with
       | Some _ => Some "0.00"
       | None => None
       end
  /\ cartItems (page st')
     = match cartItems (page st) with
       | Some _ => Some CartEmpty
       | None => None
       end.
Proof.
  simpl. unfold constructor. rewrite !lookup_insert_eq.
  repeat split.
Qed.

End CheckoutFacts.

(** ** The add buttons of the product cards *)

Section CatalogFacts.

Import CartManager Catalog.

Local Open Scope num_scope.

Variable toNumber : string -> option Z.
Hypothesis toNumber_string_of_Z : forall n, toNumber (string_of_Z n) = Some n.

Variable products : list Product.

Lemma find_product_numbered (n : Z) :
  Forall (fun p => exists m, product_id p = IdNum m) products ->
  List.find (fun p => CartButtons.loose_eq toNumber (product_id p) (string_of_Z n)) products
  = List.find (fun p => strict_eq (product_id p) (IdNum n)) products.
Proof.
  induction 1 as [|x c [m Hx] Hc IH]; simpl; [reflexivity |].
  rewrite Hx. simpl. rewrite toNumber_string_of_Z, IH. reflexivity.
Qed.

Lemma assign_last (productId : ident) (f : LineItem -> LineItem)
    (c : list LineItem) (item : LineItem) :
  find productId c = None -> has_id productId item = true ->
  assign productId f (c ++ [item]) = c ++ [f item].
Proof. intros Hc Hi. now apply assign_split. Qed.

(** With products whose identifiers are numbers, the clicks on the add
    button of a product that carries no quantity, in a cart that has no
    line item of it, add up in a single line item at the end of the cart:
    after [k + 1] clicks its quantity is [k + 1]. *)
Theorem addToCartClick_counts_clicks (n : Z) (product : Product) (st : State)
    (k : nat) :
  Forall (fun p => exists m, product_id p = IdNum m) products ->
  List.find (fun p => strict_eq (product_id p) (IdNum n)) products = Some product ->
  product_quantity product = None ->
  find (IdNum n) (cart st) = None ->
  cart (Nat.iter (S k) (addToCartClick toNumber products (string_of_Z n)) st)
  = cart st ++ [spread product (Z.of_nat (S k))].
Proof.
  intros Hall Hfind Hq Habsent.
  assert (product_id product = IdNum n) as Hid.
  { apply List.find_some in Hfind as [_ H]. now apply strict_eq_eq in H. }
  assert (quantity_or_1 product = 1%Z) as H1 by (unfold quantity_or_1; now rewrite Hq).
  assert (forall st', addToCartClick toNumber products (string_of_Z n) st'
                      = addProduct product st') as Hclick.
  { intros st'. unfold addToCartClick.
    now rewrite (find_product_numbered n Hall), Hfind. }
  induction k as [|k IH].
  - simpl. rewrite Hclick, cart_addProduct, Hid, Habsent, H1. reflexivity.
  - change (Nat.iter (S (S k)) ?f st) with (f (Nat.iter (S k) f st)).
    rewrite Hclick, cart_addProduct, IH, Hid.
    assert (has_id (IdNum n) (spread product (Z.of_nat (S k))) = true) as Hi.
    { apply has_id_eq. exact Hid. }
    rewrite (find_app_None _ _ _ Habsent). unfold find at 1. simpl List.find.
    rewrite Hi, (assign_last _ _ _ _ Habsent Hi), H1.
    do 2 f_equal. unfold set_quantity, spread. simpl quantity. f_equal.
    rewrite add_of_Z. do 2 f_equal. lia.
Qed.

End CatalogFacts.

Lemma addToCartClick_counts_clicks_witness :
  (forall n, Samples.decimal (string_of_Z n) = Some n)
  /\ CartManager.cart
       (Nat.iter 3
          (Catalog.addToCartClick Samples.decimal [Samples.productX None] "1")
          (Samples.stateOf [Samples.itemY]))
     = [Samples.itemY; Samples.itemX 3].
Proof.
  split; [exact decimal_string_of_Z |].
  exact (addToCartClick_counts_clicks Samples.decimal decimal_string_of_Z
           [Samples.productX None] 1 (Samples.productX None)
           (Samples.stateOf [Samples.itemY]) 2
           ltac:(repeat constructor; now exists 1) eq_refl eq_refl eq_refl).
Defined.

(** ** The catalog and the reload *)

Section CatalogReload.

Import CartManager Catalog.

Local Open Scope num_scope.

Variable toNumber : string -> option Z.

(** The sum of two finite numbers is finite: the model has no overflow. *)
Lemma finite_add (a b : Num.number) :
  Num.finite a -> Num.finite b -> Num.finite (a + b).
Proof. destruct a, b; simpl; tauto. Qed.

Lemma addProduct_finite (product : Product) (st : State) :
  finite_numbers (cart st) ->
  Num.finite (product_price product) -> Num.finite (quantity_or_1 product) ->
  finite_numbers (cart (addProduct product st)).
Proof.
  intros Hst Hp Hq. pose proof (addProduct_cases product st) as H.
  destruct (find (product_id product) (cart st)) as [existing|].
  - destruct H as (before & after & Hc & _ & _ & ->). rewrite Hc in Hst.
    unfold finite_numbers in *.
    apply (Forall_replace _ _ _ existing); [exact Hst |].
    apply List.Forall_app in Hst as [_ Hst]. apply List.Forall_inv in Hst as [Hpe Hqe].
    split; [exact Hpe | now apply finite_add].
  - rewrite H. apply List.Forall_app. split; [exact Hst |].
    repeat constructor; assumption.
Qed.

Lemma getMockProducts_finite (product : Product) :
  In product getMockProducts ->
  Num.finite (product_price product) /\ Num.finite (quantity_or_1 product).
Proof.
  intros H. simpl in H. decompose [or] H; subst; (now split) || contradiction.
Qed.

(** The carts that the add buttons of the catalog build are read back by
    a reload: from a cart of finite prices and quantities that a reload
    would read back, whatever add buttons are clicked, in whatever
    order, the cart that results has finite prices and quantities and a
    reload reads it back. *)
Theorem catalog_clicks_reload (clicks : list string) (st : State) :
  finite_numbers (cart st) -> Reload.reloads st ->
  let st' :=
    fold_left (fun s productId => addToCartClick toNumber getMockProducts productId s)
      clicks st in
  finite_numbers (cart st') /\ Reload.reloads st'.
Proof.
  revert st. induction clicks as [|productId clicks IH]; intros st Hfinite Hreload;
    [split; assumption |].
  simpl. apply IH; unfold addToCartClick;
    destruct (List.find _ getMockProducts) as [product|] eqn:E; try assumption;
    apply List.find_some in E as [Hin _];
    destruct (getMockProducts_finite _ Hin) as [Hp Hq].
  - now apply addProduct_finite.
  - apply reloads_addProduct. now apply addProduct_finite.
Qed.

End CatalogReload.

Lemma catalog_clicks_reload_witness :
  CartManager.finite_numbers (CartManager.cart (Samples.stateOf []))
  /\ Reload.reloads (Samples.stateOf [])
  /\ CartManager.cart
       (fold_left
          (fun s productId =>
             Catalog.addToCartClick Samples.decimal Catalog.getMockProducts productId s)
          ["1"; "4"; "1"] (Samples.stateOf []))
     = [Samples.itemZapatillas 2;
        CartManager.mkLineItem (CartManager.IdNum 4) "Balón Fútbol Profesional"
          (Some "Tamaño 5, material de alta durabilidad, diseño oficial")
          34.99 (Some "🏆 Top") 1]
  /\ Reload.reloads
       (fold_left
          (fun s productId =>
             Catalog.addToCartClick Samples.decimal Catalog.getMockProducts productId s)
          ["1"; "4"; "1"] (Samples.stateOf [])).
Proof.
  assert (CartManager.finite_numbers (CartManager.cart (Samples.stateOf []))) as Hfinite
    by constructor.
  assert (Reload.reloads (Samples.stateOf [])) as Hreload
    by (exists (JSON.JArr []); split; reflexivity).
  split; [exact Hfinite |]. split; [exact Hreload |]. split; [reflexivity |].
  exact (proj2 (catalog_clicks_reload Samples.decimal ["1"; "4"; "1"]
                  (Samples.stateOf []) Hfinite Hreload)).
Defined.
(** ** The navigation menu *)

Section HeaderMenuFacts.

Import HeaderMenu.

Lemma handle_coherent (m : Menu) (e : Event) : coherent m -> coherent (handle m e).
Proof.
  intros [Ht Ha]. destruct e; [| split; reflexivity].
  unfold coherent, handle, toggleClick. simpl. rewrite Ha, Ht.
  split; [reflexivity |]. now destruct (navActive m).
Qed.

(** From a menu whose [aria-expanded] attribute and two classes tell the
    same state, every series of clicks on the toggle button and on the
    links gives such a menu again; and two clicks on the toggle button
    give back the menu as it was. *)
Theorem menu_stays_coherent (events : list Event) (m : Menu) :
  coherent m ->
  coherent (run events m) /\ toggleClick (toggleClick m) = m.
Proof.
  intros Hm. split.
  - unfold run. revert m Hm. induction events as [|e events IH]; intros m Hm; simpl.
    + exact Hm.
    + apply IH. now apply handle_coherent.
  - destruct Hm as [Ht Ha]. destruct m as [a t n]. simpl in *. subst.
    unfold toggleClick. simpl. now destruct n.
Qed.

Lemma menu_stays_coherent_witness :
  coherent Samples.closedMenu
  /\ coherent (run [ToggleClick; ToggleClick; ToggleClick; LinkClick; ToggleClick]
                 Samples.closedMenu).
Proof.
  assert (coherent Samples.closedMenu) as H by (split; reflexivity).
  split; [exact H |].
  exact (proj1 (menu_stays_coherent
                  [ToggleClick; ToggleClick; ToggleClick; LinkClick; ToggleClick]
                  Samples.closedMenu H)).
Defined.

End HeaderMenuFacts.

(** ** The cart modal *)

Section CartModalFacts.

Import CartModal.

Lemma run_app (events later : list Event) (m : Modal) :
  run (events ++ later) m = run later (run events m).
Proof. unfold run. apply fold_left_app. Qed.

(** The timers of the modal are not cancelled. Whatever happened before,
    an opening followed by its timer shows the modal and a closing
    followed by its timer hides it; but when the close timer of an
    earlier closing runs after the modal has been opened again, the modal
    is hidden while marked as open, and when the open timer of an earlier
    opening runs after the modal has been closed, the modal is marked as
    active while closed. *)
Theorem modal_timers_outlive_clicks (events : list Event) (m : Modal) :
  run (events ++ [ButtonClick; OpenTimer]) m = mkModal (Some "false") true "flex"
  /\ run (events ++ [CloseClick; CloseTimer]) m = mkModal (Some "true") false "none"
  /\ run (events ++ [ButtonClick; OpenTimer; CloseTimer]) m
     = mkModal (Some "false") true "none"
  /\ run (events ++ [CloseClick; OpenTimer; CloseTimer]) m
     = mkModal (Some "true") true "none".
Proof. rewrite !run_app. repeat split. Qed.

End CartModalFacts.

(** ** The newsletter form *)

Section NewsletterFacts.

Import Newsletter.

(** One submit with an address shows the thanks on the button and its
    timer puts the text of the button back. A second submit before that
    timer holds the thanks as the text to put back: once both timers have
    run, the button shows the thanks for good. *)
Theorem second_submit_keeps_thanks (value e1 e2 : string) (b : Button) :
  e1 <> "" -> e2 <> "" ->
  let f := mkForm (Some value) (Some b) in
  let first := submit (typeEmail e1 f) in
  let second := submit (typeEmail e2 (fst (fst first))) in
  snd first = Scheduled (text b)
  /\ revert (text b) (fst (fst first)) = mkForm (Some "") (Some (mkButton (text b) ""))
  /\ snd second = Scheduled "¡Gracias!"
  /\ revert "¡Gracias!" (revert (text b) (fst (fst second)))
     = mkForm (Some "") (Some (mkButton "¡Gracias!" "")).
Proof.
  intros H1 H2. unfold submit, typeEmail. simpl.
  rewrite (proj2 (String.eqb_neq e1 "") H1). simpl.
  rewrite (proj2 (String.eqb_neq e2 "") H2). simpl.
  repeat split.
Qed.

Lemma second_submit_keeps_thanks_witness :
  "ana@example.com" <> "" /\ "luis@example.com" <> ""
  /\ revert "¡Gracias!"
       (revert "Suscribirse"
          (fst (fst (submit (typeEmail "luis@example.com"
             (fst (fst (submit (typeEmail "ana@example.com" Samples.footerForm)))))))))
     = mkForm (Some "") (Some (mkButton "¡Gracias!" "")).
Proof.
  split; [discriminate |]. split; [discriminate |].
  exact (proj2 (proj2 (proj2
           (second_submit_keeps_thanks "" "ana@example.com" "luis@example.com"
              (mkButton "Suscribirse" "") ltac:(discriminate) ltac:(discriminate))))).
Defined.

End NewsletterFacts.

(** ** More on the path fixer *)

Section PathFixerMore.

Import PathFixer.

Lemma getAttribute_setAttribute_other (n k v : string) (attrs : list (string * string)) :
  k <> n -> getAttribute k (setAttribute n v attrs) = getAttribute k attrs.
Proof.
  intros Hk. induction attrs as [|[a w] attrs IH]; simpl.
  - now rewrite (proj2 (String.eqb_neq n k)) by congruence.
  - destruct (String.eqb a n) eqn:Ea; simpl.
    + apply String.eqb_eq in Ea. subst a.
      now rewrite (proj2 (String.eqb_neq n k)) by congruence.
    + now rewrite IH.
Qed.

Lemma hasAttribute_setAttribute (n k v : string) (attrs : list (string * string)) :
  hasAttribute k attrs = true -> hasAttribute k (setAttribute n v attrs) = true.
Proof.
  unfold hasAttribute. destruct (String.eqb_spec k n) as [-> | Hk].
  - now rewrite getAttribute_setAttribute.
  - now rewrite getAttribute_setAttribute_other.
Qed.

Lemma setAttribute_names (n v w : string) (attrs : list (string * string)) :
  getAttribute n attrs = Some w -> map fst (setAttribute n v attrs) = map fst attrs.
Proof.
  induction attrs as [|[a u] attrs IH]; simpl; [discriminate |].
  destruct (String.eqb a n); simpl; [reflexivity |].
  intros H. now rewrite IH.
Qed.

(** What one pass of the two loops keeps of an element. *)
Lemma fix_keeps (isInPages : bool) (el : Element) :
  let el' := fixResource isInPages (fixLink isInPages el) in
  tagName el' = tagName el /\ textContent el' = textContent el
  /\ map fst (attributes el') = map fst (attributes el)
  /\ forall k, k <> "href" -> k <> "src" ->
       getAttribute k (attributes el') = getAttribute k (attributes el).
Proof.
  assert (forall b e,
    tagName (fixLink b e) = tagName e /\ textContent (fixLink b e) = textContent e
    /\ map fst (attributes (fixLink b e)) = map fst (attributes e)
    /\ forall k, k <> "href" -> k <> "src" ->
         getAttribute k (attributes (fixLink b e)) = getAttribute k (attributes e)) as Hlink.
  { intros b e. unfold fixLink.
    destruct (String.eqb (tagName e) "a"); [| auto].
    destruct (getAttribute "href" (attributes e)) as [h|] eqn:Eh; [| auto].
    destruct (String.eqb h ""); [auto |].
    destruct (String.eqb (fixHref b h) h); [auto |].
    simpl. repeat split.
    - exact (setAttribute_names _ _ _ _ Eh).
    - intros k Hk _. now apply getAttribute_setAttribute_other. }
  assert (forall b e,
    tagName (fixResource b e) = tagName e /\ textContent (fixResource b e) = textContent e
    /\ map fst (attributes (fixResource b e)) = map fst (attributes e)
    /\ forall k, k <> "href" -> k <> "src" ->
         getAttribute k (attributes (fixResource b e)) = getAttribute k (attributes e))
    as Hres.
  { intros b e. unfold fixResource.
    destruct (isResource e); [| auto].
    destruct (getAttribute _ (attributes e)) as [u|] eqn:Eu; [| auto].
    destruct (negb (String.eqb u "") && startsWith u "/"); [| auto].
    simpl. repeat split.
    - exact (setAttribute_names _ _ _ _ Eu).
    - intros k Hh Hs. apply getAttribute_setAttribute_other.
      destruct (hasAttribute "href" (attributes e)); assumption. }
  intros el'. subst el'.
  destruct (Hlink isInPages el) as (Ht & Hx & Hn & Hk).
  destruct (Hres isInPages (fixLink isInPages el)) as (Ht' & Hx' & Hn' & Hk').
  repeat split; try congruence.
  intros k Hh Hs. now rewrite Hk', Hk.
Qed.

(** Under any protocol the path fixer keeps the elements in number and
    in order, and keeps of each its tag, its text, the names of its
    attributes and the value of every attribute other than [href] and
    [src]. *)
Theorem init_keeps_structure (loc : Location) (elements : list Element) :
  Forall2
    (fun el el' =>
       tagName el' = tagName el /\ textContent el' = textContent el
       /\ map fst (attributes el') = map fst (attributes el)
       /\ forall k, k <> "href" -> k <> "src" ->
            getAttribute k (attributes el') = getAttribute k (attributes el))
    elements (init loc elements).
Proof.
  unfold init. destruct (String.eqb (protocol loc) "file:").
  - unfold fixFileProtocolPaths.
    induction elements as [|el elements IH]; simpl; constructor;
      [apply fix_keeps | exact IH].
  - induction elements as [|el elements IH]; constructor; [| exact IH].
    repeat split.
Qed.

Lemma init_keeps_structure_witness :
  getAttribute "rel"
    (attributes (nth 0 (init Samples.pagesLocation
                          [Samples.stylesheet "/assets/css/main.css"])
                   (Samples.anchor "")))
  = Some "stylesheet".
Proof.
  pose proof (init_keeps_structure Samples.pagesLocation
                [Samples.stylesheet "/assets/css/main.css"]) as H.
  inversion H as [|el el' l l' (_ & _ & _ & Hk) _]; subst.
  exact (Hk "rel" ltac:(discriminate) ltac:(discriminate)).
Defined.

(** The attribute that the loop over the resources reads and writes. *)
Lemma fixResource_result (isInPages : bool) (el : Element) (url : string) :
  isResource el = true ->
  getAttribute (if hasAttribute "href" (attributes el) then "href" else "src")
    (attributes el) = Some url ->
  isResource (fixResource isInPages el) = true
  /\ hasAttribute "href" (attributes (fixResource isInPages el))
     = hasAttribute "href" (attributes el)
  /\ getAttribute (if hasAttribute "href" (attributes el) then "href" else "src")
       (attributes (fixResource isInPages el))
     = Some (if startsWith url "/"
             then (if isInPages then ".." else ".") +:+ url else url).
Proof.
  intros Hres Hurl. unfold fixResource. rewrite Hres, Hurl.
  destruct (startsWith url "/") eqn:Hroot.
  - destruct (String.eqb_spec url "") as [-> |]; [discriminate |]. simpl.
    split; [| split].
    + unfold isResource in *. simpl.
      apply orb_true_iff in Hres as [H | H]; apply andb_true_iff in H as [Ht Ha];
        rewrite Ht, (hasAttribute_setAttribute _ _ _ _ Ha); simpl;
        [reflexivity | apply orb_true_r].
    + destruct (hasAttribute "href" (attributes el)) eqn:Hh.
      * now apply hasAttribute_setAttribute.
      * unfold hasAttribute in *.
        rewrite getAttribute_setAttribute_other by discriminate. exact Hh.
    + apply getAttribute_setAttribute.
  - rewrite andb_false_r. auto.
Qed.

Lemma dot_not_root (isInPages : bool) (url : string) :
  startsWith ((if isInPages then ".." else ".") +:+ url) "/" = false.
Proof. now destruct isInPages. Qed.

(** Opened from a file, after the path fixer no stylesheet or script
    reference that the loop reads starts with ["/"]; and a second pass
    leaves every such element as the first pass made it. *)
Theorem init_resources_not_root_relative (loc : Location) (elements : list Element)
    (el' : Element) (url : string) :
  protocol loc = "file:" ->
  In el' (init loc elements) ->
  isResource el' = true ->
  getAttribute (if hasAttribute "href" (attributes el') then "href" else "src")
    (attributes el') = Some url ->
  startsWith url "/" = false
  /\ fixResource (includes (pathname loc) "/pages/")
       (fixLink (includes (pathname loc) "/pages/") el') = el'.
Proof.
  intros Hp Hin Hres Hurl. unfold init in Hin. rewrite Hp in Hin. simpl in Hin.
  unfold fixFileProtocolPaths in Hin.
  set (b := includes (pathname loc) "/pages/") in *.
  apply in_map_iff in Hin as (x & <- & Hin).
  apply in_map_iff in Hin as (el & <- & _).
  assert (startsWith url "/" = false) as Hroot.
  { destruct (isResource (fixLink b el)) eqn:Hr.
    - destruct (getAttribute
                  (if hasAttribute "href" (attributes (fixLink b el)) then "href" else "src")
                  (attributes (fixLink b el))) as [u|] eqn:Hu.
      + destruct (fixResource_result b _ u Hr Hu) as (_ & Hh & Hg).
        rewrite Hh, Hg in Hurl. injection Hurl as <-.
        destruct (startsWith u "/") eqn:Hu'; [apply dot_not_root | exact Hu'].
      + unfold fixResource in Hurl. rewrite Hr, Hu in Hurl.
        rewrite Hu in Hurl. discriminate.
    - unfold fixResource in Hres. rewrite Hr in Hres. congruence. }
  split; [exact Hroot |].
  rewrite fixLink_other
    by (destruct (isResource_tag _ Hres) as [-> | ->]; discriminate).
  unfold fixResource at 1. rewrite Hres, Hurl, Hroot. now rewrite andb_false_r.
Qed.

Lemma init_resources_not_root_relative_witness :
  protocol Samples.rootLocation = "file:"
  /\ In (Samples.script "./assets/js/main.js")
       (init Samples.rootLocation [Samples.script "/assets/js/main.js"])
  /\ startsWith "./assets/js/main.js" "/" = false.
Proof.
  split; [reflexivity |]. split; [left; reflexivity |].
  exact (proj1 (init_resources_not_root_relative Samples.rootLocation
                  [Samples.script "/assets/js/main.js"]
                  (Samples.script "./assets/js/main.js") "./assets/js/main.js"
                  eq_refl (or_introl eq_refl) eq_refl eq_refl)).
Defined.

Lemma fixHref_pages_rule (isInPages : bool) (rest : string) :
  fixHref isInPages ("/pages/" +:+ rest)
  = if isInPages then "/" +:+ rest else "pagess/" +:+ rest.
Proof. destruct isInPages, rest; reflexivity. Qed.

(** Opened from a file, an anchor whose href is ["/pages/"] followed by a
    rest gets, in a document inside [/pages/], the href ["/"] followed by
    that rest, which still starts with ["/"], and in a document outside
    the href ["pagess/"] followed by that rest. *)
Theorem init_pages_href (loc : Location) (elements : list Element) (i : nat)
    (el : Element) (rest : string) :
  protocol loc = "file:" ->
  nth_error elements i = Some el ->
  tagName el = "a" ->
  getAttribute "href" (attributes el) = Some ("/pages/" +:+ rest) ->
  exists el',
    nth_error (init loc elements) i = Some el'
    /\ getAttribute "href" (attributes el')
       = Some (if includes (pathname loc) "/pages/"
               then "/" +:+ rest else "pagess/" +:+ rest).
Proof.
  intros Hp Hi Htag Hhref. unfold init. rewrite Hp. simpl.
  unfold fixFileProtocolPaths. set (b := includes (pathname loc) "/pages/").
  exists (fixResource b (fixLink b el)). split.
  - rewrite map_map, nth_error_map, Hi. reflexivity.
  - assert (startsWith ("/pages/" +:+ rest) "/pages/" = true) as Hpre
      by now destruct rest.
    pose proof (fixHref_pages b _ Hpre) as Hne.
    assert (fixLink b el = with_attribute "href" (fixHref b ("/pages/" +:+ rest)) el) as E.
    { rewrite (fixLink_anchor _ _ _ Htag Hhref).
      now rewrite (proj2 (String.eqb_neq _ _) Hne). }
    rewrite fixResource_anchor by (rewrite E; exact Htag).
    rewrite E. simpl. rewrite getAttribute_setAttribute, fixHref_pages_rule. reflexivity.
Qed.

Lemma init_pages_href_witness :
  exists el',
    nth_error (init Samples.pagesLocation [Samples.anchor "/pages/productos.html"]) 0
    = Some el'
    /\ getAttribute "href" (attributes el') = Some "/productos.html".
Proof.
  exact (init_pages_href Samples.pagesLocation [Samples.anchor "/pages/productos.html"]
           0 (Samples.anchor "/pages/productos.html") "productos.html"
           eq_refl eq_refl eq_refl eq_refl).
Defined.

End PathFixerMore.

(** ** The value the constructor takes, and the start of the application *)

Section StartFacts.

Import JSON CartManager.

(** The constructor takes whatever JSON value the storage holds as the
    cart, a list of line items or not, and the empty list when the value
    is [null], [false], [0] or the empty string. *)
Theorem constructor_takes_any_value (v : json) (storage : gmap string string) :
  constructor (<[storageKey := stringify v]> storage)
  = Normal (if truthy v then v else JArr [])
  /\ constructor (<[storageKey := "5"]> storage) = Normal (JNum 5)
  /\ cart_of_json (JNum 5) = None.
Proof.
  unfold constructor. rewrite !lookup_insert_eq, parse_stringify.
  repeat split.
Qed.

(** With a stored text that [JSON.parse] rejects, [init] never reaches
    the loading of the components and of the products: whatever those
    steps are, the cart manager stays unset, the [main] element, when the
    page has one, shows the error section, and the body is opaque
    again. *)
Theorem init_with_corrupt_storage (startup : App.Window -> App.Window)
    (w : App.Window) (s : string) (e : error) :
  App.storage w !! storageKey = Some s ->
  JSON.parse s = Throw e ->
  App.init startup w
  = App.hideLoadingIndicator (App.showErrorUI (App.showLoadingIndicator w))
  /\ App.cartManager (App.init startup w) = App.cartManager w
  /\ App.main (App.init startup w) = App.main (App.showErrorUI w)
  /\ App.opacity (App.init startup w) = "1".
Proof.
  intros Hs He. unfold App.init, constructor. simpl. rewrite Hs, He.
  repeat split.
Qed.

Lemma init_with_corrupt_storage_witness :
  JSON.parse "{" = Throw SyntaxError
  /\ App.cartManager
       (App.init (fun w => w)
          (App.mkWindow None (<[storageKey := "{"]> ∅) (Some "<h2>Productos</h2>") "" ""))
     = None.
Proof.
  split; [reflexivity |].
  exact (proj1 (proj2 (init_with_corrupt_storage (fun w => w)
                         (App.mkWindow None (<[storageKey := "{"]> ∅)
                            (Some "<h2>Productos</h2>") "" "")
                         "{" SyntaxError eq_refl eq_refl))).
Defined.

End StartFacts.
